(** * dircap: the alert mailer [examples/send-email.py]

    A shallow embedding of the script that summarises a dircap JSON report
    and mails it, together with the properties its specification states.

    Conventions of the embedding.
    - A Python [str] is a [string]; each [ascii] stands for one code point
      below 256, so lengths, padding and stripping count characters.
    - A value produced by [json.loads] is a [json]; a Python [dict] is an
      association list in insertion order (keys distinct for a parsed
      document), [dict.get] returns the binding found first.
    - A Python [float] is a [spec_float] (binary64: 53 bits of precision).
    - A call that can raise returns a [result]; code that prints or talks to
      the SMTP server runs in [IO], which records every such action in order.
    - The process environment, the file system, the clock and the SMTP
      server are read from a [World]. *)

From Stdlib Require Import ZArith List String Ascii Bool Lia.
From Stdlib Require Import DecimalString SpecFloat.
From Stdlib Require DecimalPos DecimalZ.
Import ListNotations.

Local Open Scope string_scope.
Local Open Scope Z_scope.

(** ** Exceptions and results *)

(** Exceptions derived from [Exception]: the built-in ones the script's own
    expressions raise, and whatever a library call raises. *)
Inductive exn : Type :=
| ValueError
| TypeError
| OverflowError
| OSError
| OtherError (name : string).

Inductive result (A : Type) : Type :=
| Ok (a : A)
| Raise (e : exn).

Arguments Ok {A} a.
Arguments Raise {A} e.

Definition rbind {A B : Type} (r : result A) (k : A -> result B) : result B :=
  match r with
  | Ok a => k a
  | Raise e => Raise e
  end.

(** [try: body except Exception: handler] *)
Definition try_except {A : Type} (body : result A) (handler : exn -> result A)
  : result A :=
  match body with
  | Ok a => Ok a
  | Raise e => handler e
  end.

Declare Scope result_scope.
Delimit Scope result_scope with result.
Notation "x <- r ;; k" := (rbind r (fun x => k))
  (at level 61, r at next level, right associativity) : result_scope.

(** ** Python strings *)

Module Str.

Definition code (c : ascii) : N := N_of_ascii c.

Definition tab : ascii := "009"%char.
Definition newline : ascii := "010"%char.
Definition cr : ascii := "013"%char.
Definition dquote : ascii := "034"%char.
Definition squote : ascii := "'"%char.
Definition backslash : ascii := "\"%char.

(** [str.isspace] on one character (code points below 256). *)
Definition isspace (c : ascii) : bool :=
  let n := code c in
  (((9 <=? n) && (n <=? 13)) || ((28 <=? n) && (n <=? 32))
   || (n =? 133) || (n =? 160))%N.

Fixpoint lstrip (s : string) : string :=
  match s with
  | EmptyString => EmptyString
  | String c r => if isspace c then lstrip r else s
  end.

Fixpoint rstrip (s : string) : string :=
  match s with
  | EmptyString => EmptyString
  | String c r =>
      match rstrip r with
      | EmptyString => if isspace c then EmptyString else String c EmptyString
      | r' => String c r'
      end
  end.

(** [s.strip()] *)
Definition strip (s : string) : string := rstrip (lstrip s).

Fixpoint map_chars (f : ascii -> ascii) (s : string) : string :=
  match s with
  | EmptyString => EmptyString
  | String c r => String (f c) (map_chars f r)
  end.

Definition lower_char (c : ascii) : ascii :=
  let n := code c in
  if (((65 <=? n) && (n <=? 90))
      || ((192 <=? n) && (n <=? 222) && negb (n =? 215)))%N
  then ascii_of_N (n + 32) else c.

(** [s.lower()] *)
Definition lower (s : string) : string := map_chars lower_char s.

Fixpoint contains_char (c : ascii) (s : string) : bool :=
  match s with
  | EmptyString => false
  | String d r => Ascii.eqb c d || contains_char c r
  end.

Fixpoint all_chars (p : ascii -> bool) (s : string) : bool :=
  match s with
  | EmptyString => true
  | String c r => p c && all_chars p r
  end.

Fixpoint replicate (n : nat) (c : ascii) : string :=
  match n with
  | O => EmptyString
  | S k => String c (replicate k c)
  end.

(** [format(s, "<w")], the default alignment of a [str] field of width [w]. *)
Definition ljust (w : nat) (s : string) : string :=
  s ++ replicate (w - String.length s) " ".

(** [format(s, ">w")] *)
Definition rjust (w : nat) (s : string) : string :=
  replicate (w - String.length s) " " ++ s.

(** [sep.join(parts)] *)
Definition join (sep : string) (parts : list string) : string :=
  String.concat sep parts.

(** [s in options] for a set of strings. *)
Definition mem (s : string) (options : list string) : bool :=
  existsb (String.eqb s) options.

(** [str(n)] for an [int]. *)
Definition of_Z (n : Z) : string := NilZero.string_of_int (Z.to_int n).

(** *** [repr] of a [str] *)

(** [str.isprintable] on one character (code points below 256). *)
Definition isprintable (c : ascii) : bool :=
  let n := code c in
  (((32 <=? n) && (n <? 127)) || ((161 <=? n) && negb (n =? 173)))%N.

Definition hex_digit (n : N) : ascii :=
  if (n <? 10)%N then ascii_of_N (48 + n) else ascii_of_N (87 + n).

Definition escape_char (quote c : ascii) : string :=
  if Ascii.eqb c quote || Ascii.eqb c backslash then
    String backslash (String c EmptyString)
  else if Ascii.eqb c tab then "\t"
  else if Ascii.eqb c newline then "\n"
  else if Ascii.eqb c cr then "\r"
  else if isprintable c then String c EmptyString
  else "\x" ++ String (hex_digit (code c / 16)) (String (hex_digit (code c mod 16)) EmptyString).

Fixpoint escape (quote : ascii) (s : string) : string :=
  match s with
  | EmptyString => EmptyString
  | String c r => escape_char quote c ++ escape quote r
  end.

(** Single quotes, unless the text holds a single quote and no double one. *)
Definition repr (s : string) : string :=
  let quote :=
    if contains_char squote s && negb (contains_char dquote s)
    then dquote else squote in
  String quote (escape quote s ++ String quote EmptyString).

(** *** [int(s)] for a [str] *)

(** Blanks [int] skips around the digits: the ASCII blanks of C's [isspace]
    and the non-ASCII characters that are [str.isspace]. *)
Definition int_space (c : ascii) : bool :=
  let n := code c in
  (((9 <=? n) && (n <=? 13)) || (n =? 32) || (n =? 133) || (n =? 160))%N.

Fixpoint int_lstrip (s : string) : string :=
  match s with
  | EmptyString => EmptyString
  | String c r => if int_space c then int_lstrip r else s
  end.

Definition digit_value (c : ascii) : option Z :=
  let n := code c in
  if ((48 <=? n) && (n <=? 57))%N then Some (Z.of_N n - 48) else None.

(** Where the scan of the digits stands: nothing read yet, just after a
    digit, or just after an underscore. *)
Inductive scan_state : Type := AtStart | AfterDigit | AfterUnderscore.

(** Reads [digit (_? digit)*] followed by blanks only; returns the value and
    the number of digits read. *)
Fixpoint scan_digits (st : scan_state) (acc : Z) (count : nat) (s : string)
  : option (Z * nat) :=
  match s with
  | EmptyString =>
      match st with
      | AfterDigit => Some (acc, count)
      | _ => None
      end
  | String c r =>
      match digit_value c with
      | Some d => scan_digits AfterDigit (10 * acc + d) (S count) r
      | None =>
          match st with
          | AfterDigit =>
              if Ascii.eqb c "_" then scan_digits AfterUnderscore acc count r
              else if all_chars int_space s then Some (acc, count)
              else None
          | _ => None
          end
      end
  end.

(** [sys.get_int_max_str_digits()], at its default. *)
Definition int_max_str_digits : nat := 4300.

(** [int(s)]: [None] stands for the [ValueError] it raises. *)
Definition to_Z (s : string) : option Z :=
  let body := int_lstrip s in
  let '(negative, digits) :=
    match body with
    | String "-" r => (true, r)
    | String "+" r => (false, r)
    | _ => (false, body)
    end in
  match scan_digits AtStart 0 0 digits with
  | Some (n, count) =>
      if (int_max_str_digits <? count)%nat then None
      else Some (if negative then - n else n)
  | None => None
  end.

End Str.

(** ** Python floats *)

Module Float.

(** The least exponent of a binary64 mantissa, and the mantissa that opens
    a binade. *)
Definition emin : Z := -1074.
Definition binade_start : Z := 2 ^ 52.

Definition ndigits (x : Z) : Z :=
  Z.of_nat (Decimal.nb_digits (Pos.to_uint (Z.to_pos x))).

(** The search of the shortest decimal that reads back as the float.  All
    quantities are integers in one unit; [x] is the float, [lo] and [hi]
    the ends of the interval of reals that round to it, [closed] whether
    the ends round to it too, [nd] the number of digits of [x].  With [n]
    digits kept, the two candidates are [x] rounded down and up at that
    digit; the search takes the nearer candidate inside the interval (the
    even one on a tie) at the first [n] that has one. *)
Fixpoint search (x lo hi : Z) (closed : bool) (nd : Z) (fuel : nat) (n : Z) : Z :=
  match fuel with
  | O => x
  | S fuel' =>
      if nd <=? n then x
      else
        let q := 10 ^ (nd - n) in
        let down := (x / q) * q in
        let up := down + q in
        let inside v :=
          if closed then (lo <=? v) && (v <=? hi) else (lo <? v) && (v <? hi) in
        match inside down, inside up with
        | true, true =>
            if (x - down <? up - x)
               || ((x - down =? up - x) && Z.even (x / q))
            then down else up
        | true, false => down
        | false, true => up
        | false, false => search x lo hi closed nd fuel' (n + 1)
        end
  end.

(** The mantissa and exponent binary64 stores for [m * 2^e]: the mantissa
    has 53 bits, or fewer at the least exponent. *)
Definition canonical (m : positive) (e : Z) : Z * Z :=
  let excess := Z.log2 (Z.pos m) - 52 in
  if 0 <? excess then
    if Z.pos m mod 2 ^ excess =? 0
    then (Z.pos m / 2 ^ excess, e + excess)
    else (Z.pos m, e)
  else
    let room := Z.min (- excess) (e - emin) in
    if 0 <? room then (Z.pos m * 2 ^ room, e - room) else (Z.pos m, e).

(** The digits of the shortest decimal [0.d1...dn * 10^decpt] that reads
    back as [m * 2^e], and [decpt].  The float and the half-way points to
    its neighbours are exact decimals: in units of [2^(e-2)], which is
    [5^(2-e) * 10^(e-2)] when [e < 2]. *)
Definition shortest (m : positive) (e : Z) : string * Z :=
  let '(m, e) := canonical m e in
  let below := if (m =? binade_start) && (emin <? e) then 1 else 2 in
  let scale := if e - 2 <? 0 then 5 ^ (2 - e) else 2 ^ (e - 2) in
  let e10 := Z.min (e - 2) 0 in
  let x := 4 * m * scale in
  let lo := (4 * m - below) * scale in
  let hi := (4 * m + 2) * scale in
  let d := search x lo hi (Z.even m) (ndigits x) 17 1 in
  let '(kept, zeros) := Decimal.nztail (Pos.to_uint (Z.to_pos d)) in
  (NilEmpty.string_of_uint kept,
   Z.of_nat (Decimal.nb_digits kept) + Z.of_nat zeros + e10).

(** [repr] lays the digits out, with an exponent when the decimal point
    would stand more than 16 places right or 4 places left of them. *)
Definition layout (digits : string) (decpt : Z) : string :=
  let n := Z.of_nat (String.length digits) in
  if (decpt <=? -4) || (16 <? decpt) then
    let ex := decpt - 1 in
    let mantissa :=
      match digits with
      | String d EmptyString => digits
      | String d r => String d (String "." r)
      | EmptyString => EmptyString
      end in
    mantissa ++ "e" ++ (if ex <? 0 then "-" else "+")
             ++ (if Z.abs ex <? 10 then "0" else "") ++ Str.of_Z (Z.abs ex)
  else if decpt <=? 0 then
    "0." ++ Str.replicate (Z.to_nat (- decpt)) "0" ++ digits
  else if n <=? decpt then
    digits ++ Str.replicate (Z.to_nat (decpt - n)) "0" ++ ".0"
  else
    substring 0 (Z.to_nat decpt) digits ++ "."
      ++ substring (Z.to_nat decpt) (Z.to_nat (n - decpt)) digits.

(** [repr(f)], which is [str(f)] too. *)
Definition repr (f : spec_float) : string :=
  match f with
  | S754_nan => "nan"
  | S754_infinity negative => if negative then "-inf" else "inf"
  | S754_zero negative => if negative then "-0.0" else "0.0"
  | S754_finite negative m e =>
      let '(digits, decpt) := shortest m e in
      (if negative then "-" else "") ++ layout digits decpt
  end.

(** [bool(f)] *)
Definition truthy (f : spec_float) : bool :=
  match f with
  | S754_zero _ => false
  | _ => true
  end.

(** [int(f)]: truncation towards zero. *)
Definition to_Z (f : spec_float) : result Z :=
  match f with
  | S754_nan => Raise ValueError
  | S754_infinity _ => Raise OverflowError
  | S754_zero _ => Ok 0
  | S754_finite negative m e =>
      let magnitude := Z.shiftl (Z.pos m) e in
      Ok (if negative then - magnitude else magnitude)
  end.

End Float.

(** ** Values of a parsed JSON document, and the built-ins applied to them *)

#[local] Set Warnings "-register-all".

Inductive json : Type :=
| JNull
| JBool (b : bool)
| JInt (n : Z)
| JFloat (f : spec_float)
| JStr (s : string)
| JArr (items : list json)
| JObj (fields : list (string * json)).

Definition dict : Type := list (string * json).

Fixpoint dict_get (d : dict) (key : string) : option json :=
  match d with
  | [] => None
  | (k, v) :: rest => if String.eqb k key then Some v else dict_get rest key
  end.

(** [d.get(key, default)] *)
Definition get (d : dict) (key : string) (default : json) : json :=
  match dict_get d key with
  | Some v => v
  | None => default
  end.

(** [repr(v)] *)
Fixpoint py_repr (v : json) : string :=
  match v with
  | JNull => "None"
  | JBool b => if b then "True" else "False"
  | JInt n => Str.of_Z n
  | JFloat f => Float.repr f
  | JStr s => Str.repr s
  | JArr items => "[" ++ Str.join ", " (map py_repr items) ++ "]"
  | JObj fields =>
      "{" ++ Str.join ", "
               (map (fun kv => Str.repr (fst kv) ++ ": " ++ py_repr (snd kv)) fields)
          ++ "}"
  end.

(** [str(v)], and [format(v, "")] *)
Definition py_str (v : json) : string :=
  match v with
  | JStr s => s
  | _ => py_repr v
  end.

(** [bool(v)] *)
Definition truthy (v : json) : bool :=
  match v with
  | JNull => false
  | JBool b => b
  | JInt n => negb (n =? 0)
  | JFloat f => Float.truthy f
  | JStr s => negb (String.eqb s "")
  | JArr items => negb (Nat.eqb (List.length items) 0)
  | JObj fields => negb (Nat.eqb (List.length fields) 0)
  end.

(** [a or b] *)
Definition py_or (a b : json) : json := if truthy a then a else b.

(** [int(v)] *)
Definition py_int (v : json) : result Z :=
  match v with
  | JNull => Raise TypeError
  | JBool b => Ok (if b then 1 else 0)
  | JInt n => Ok n
  | JFloat f => Float.to_Z f
  | JStr s =>
      match Str.to_Z s with
      | Some n => Ok n
      | None => Raise ValueError
      end
  | JArr _ => Raise TypeError
  | JObj _ => Raise TypeError
  end.

(** [isinstance(v, int)]: [bool] is a subclass of [int]. *)
Definition isinstance_int (v : json) : bool :=
  match v with
  | JInt _ => true
  | JBool _ => true
  | _ => false
  end.

(** [[x for x in items if isinstance(x, dict)]] *)
Definition only_dicts (items : list json) : list dict :=
  flat_map (fun x => match x with JObj d => [d] | _ => [] end) items.

(** ** The summarizer *)

Record Summary : Type := { ok : Z; warn : Z; over : Z }.

(** [sum(1 for r in results if str(r.get("status")) == label)] *)
Definition count_status (label : string) (results : list dict) : Z :=
  Z.of_nat
    (List.length
       (filter (fun r => String.eqb (py_str (get r "status" JNull)) label) results)).

Definition _summarize (payload : json)
  : result (Summary * list string * list dict) :=
  let summary := {| ok := 0; warn := 0; over := 0 |} in
  let warnings : list string := [] in
  let results : list dict := [] in
  (state <-
     match payload with
     | JObj payload =>
         (summary <-
            match dict_get payload "summary" with
            | Some (JObj s) =>
                n_ok <- py_int (py_or (get s "ok" (JInt 0)) (JInt 0)) ;;
                n_warn <- py_int (py_or (get s "warn" (JInt 0)) (JInt 0)) ;;
                n_over <- py_int (py_or (get s "over" (JInt 0)) (JInt 0)) ;;
                Ok {| ok := n_ok; warn := n_warn; over := n_over |}
            | _ => Ok summary
            end ;;
          let warnings :=
            match dict_get payload "warnings" with
            | Some (JArr w) =>
                map py_str
                  (filter
                     (fun x => negb (String.eqb (Str.strip (py_str x)) "")) w)
            | _ => warnings
            end in
          let results :=
            match dict_get payload "results" with
            | Some (JArr r) => only_dicts r
            | _ => results
            end in
          Ok (summary, warnings, results))
     | JArr payload => Ok (summary, warnings, only_dicts payload)
     | _ => Ok (summary, warnings, results)
     end ;;
   let '(summary, warnings, results) := state in
   (* If summary wasn't present (flat list), compute it. *)
   let summary :=
     if (ok summary =? 0) && (warn summary =? 0) && (over summary =? 0)
        && negb (Nat.eqb (List.length results) 0)
     then {| ok := count_status "OK" results;
             warn := count_status "WARN" results;
             over := count_status "OVER" results |}
     else summary in
   Ok (summary, warnings, results))%result.

(** ** Rendering *)

Definition _fmt_row (r : dict) : string :=
  let name := py_str (get r "name" (JStr "")) in
  let path := py_str (get r "path" (JStr "")) in
  let pct := py_str (get r "pct_used" (JStr "")) in
  let status := py_str (get r "status" (JStr "")) in
  let used_b := get r "used_bytes" JNull in
  let limit_b := get r "limit_bytes" JNull in
  let used_part := if isinstance_int used_b then py_str used_b ++ "B" else "" in
  let limit_part := if isinstance_int limit_b then py_str limit_b ++ "B" else "" in
  let extra :=
    if negb (String.eqb used_part "") && negb (String.eqb limit_part "")
    then " (" ++ used_part ++ "/" ++ limit_part ++ ")"
    else "" in
  "- " ++ Str.ljust 4 status ++ " " ++ Str.rjust 4 pct ++ "%  " ++ name
       ++ "  |  " ++ path ++ extra.

(** A reading of the local clock, as [datetime.now()] returns it. *)
Record datetime : Type :=
  { year : Z; month : Z; day : Z;
    hour : Z; minute : Z; second : Z; microsecond : Z }.

Definition two_digits (n : Z) : string :=
  (if n <? 10 then "0" else "") ++ Str.of_Z n.

(** [t.strftime('%Y-%m-%d %H:%M:%S')] *)
Definition strftime (t : datetime) : string :=
  Str.of_Z (year t) ++ "-" ++ two_digits (month t) ++ "-" ++ two_digits (day t)
    ++ " " ++ two_digits (hour t) ++ ":" ++ two_digits (minute t)
    ++ ":" ++ two_digits (second t).

Definition nl : string := String Str.newline EmptyString.

(** The clock reading [now] is the value of [datetime.now()] inside the
    builder; [log_txt] and [log_json] are [str] of the two paths. *)
Definition _build_message (now : datetime) (summary : Summary)
    (warnings : list string) (results : list dict) (log_txt log_json : string)
  : string * string :=
  (* Only list WARN/OVER rows. OK rows are noise for alert emails. *)
  let affected :=
    filter (fun r => Str.mem (py_str (get r "status" JNull)) ["WARN"; "OVER"])
           results in
  let subject :=
    "dircap alert: OVER=" ++ Str.of_Z (over summary)
      ++ " WARN=" ++ Str.of_Z (warn summary) in
  let lines : list string :=
    [ "dircap detected a cap breach.";
      "";
      "Summary: OK=" ++ Str.of_Z (ok summary) ++ "  WARN="
        ++ Str.of_Z (warn summary) ++ "  OVER=" ++ Str.of_Z (over summary);
      "Time:    " ++ strftime now;
      "" ] in
  let lines :=
    if negb (Nat.eqb (List.length affected) 0) then
      (lines ++ ["Affected folders (WARN/OVER):"] ++ map _fmt_row affected ++ [""])%list
    else
      (lines ++ ["Affected folders: (could not parse details from JSON)"; ""])%list in
  let lines :=
    if negb (Nat.eqb (List.length warnings) 0) then
      (lines ++ ["Warnings:"] ++ map (fun w => ("- " ++ w)%string) warnings ++ [""])%list
    else lines in
  let lines :=
    (lines ++ [ "Logs:";
                ("- Text: " ++ log_txt)%string;
                ("- JSON: " ++ log_json)%string;
                "";
                "Tip: Open the text log for the full Rich table output." ])%list in
  (subject, Str.join nl lines).

(** ** Paths *)

Module Path.

Fixpoint split (sep : ascii) (s : string) : list string :=
  match s with
  | EmptyString => [EmptyString]
  | String c r =>
      if Ascii.eqb c sep then EmptyString :: split sep r
      else
        match split sep r with
        | part :: parts => String c part :: parts
        | [] => [String c EmptyString]
        end
  end.

Fixpoint leading (sep : ascii) (s : string) : nat :=
  match s with
  | String c r => if Ascii.eqb c sep then S (leading sep r) else O
  | EmptyString => O
  end.

(** [str(Path(s))] on a POSIX system: empty and [.] components are dropped,
    exactly two leading slashes are kept, any other number of them is one
    slash, and a path with nothing left is [.]. *)
Definition str (s : string) : string :=
  let parts :=
    filter (fun p => negb (String.eqb p "") && negb (String.eqb p "."))
           (split "/" s) in
  let slashes := leading "/" s in
  let root :=
    if Nat.eqb slashes 0 then "" else if Nat.eqb slashes 2 then "//" else "/" in
  match root, parts with
  | EmptyString, [] => "."
  | _, _ => root ++ Str.join "/" parts
  end.

End Path.

(** ** The world outside the script *)

(** An [EmailMessage] with the three headers the script sets and its text. *)
Record message : Type :=
  { msg_from : string; msg_to : string; msg_subject : string; msg_body : string }.

(** What the script asks of [smtplib]: opening a session with implicit TLS
    ([smtplib.SMTP_SSL(host, port, timeout=...)]) or without
    ([smtplib.SMTP(...)]), the calls on the session, and the [QUIT] that
    leaving the [with] block sends. *)
Inductive smtp_op : Type :=
| ConnectSSL (host : string) (port : Z) (timeout : Z)
| Connect (host : string) (port : Z) (timeout : Z)
| Ehlo
| StartTLS
| Login (user password : string)
| SendMessage (m : message)
| Quit.

(** Everything a run reads from outside: environment variables
    ([os.getenv]), the file system ([Path.exists], which raises on a path
    the system refuses to look up, and [Path.read_text]), the
    JSON parser ([json.loads]), the clock, the header checks of
    [email.message] ([compose_error m] is what building [m] raises, if
    anything), and the SMTP server ([smtp done op] is [str(e)] of the
    exception that [op] raises after the calls [done], if it raises). *)
Record World : Type :=
  { getenv : string -> option string;
    path_exists : string -> result bool;
    read_text : string -> result string;
    json_loads : string -> result json;
    now : datetime;
    compose_error : message -> option exn;
    smtp : list smtp_op -> smtp_op -> option string }.

(** What a run does that can be observed, in order. *)
Inductive event : Type :=
| Stdout (line : string)
| Stderr (line : string)
| Smtp (op : smtp_op).

(** A computation that acts on the world: the actions it performed, and
    the value it returned or the exception that escaped it. *)
Definition IO (A : Type) : Type := (list event * result A)%type.

Definition io_ret {A : Type} (a : A) : IO A := ([], Ok a).

Definition io_bind {A B : Type} (m : IO A) (k : A -> IO B) : IO B :=
  match m with
  | (t, Ok a) => let '(t', r) := k a in ((t ++ t')%list, r)
  | (t, Raise e) => (t, Raise e)
  end.

Definition emit (e : event) : IO unit := ([e], Ok tt).

Definition lift {A : Type} (r : result A) : IO A := ([], r).

Declare Scope io_scope.
Delimit Scope io_scope with io.
Notation "x <- m ;; k" := (io_bind m (fun x => k))
  (at level 61, m at next level, right associativity) : io_scope.
Notation "m ;; k" := (io_bind m (fun _ => k))
  (at level 61, right associativity) : io_scope.

(** ** Configuration *)

Definition _env (w : World) (name : string) (default : option string)
  : option string :=
  match getenv w name with
  | None => default
  | Some v =>
      let v := Str.strip v in
      if negb (String.eqb v "") then Some v else default
  end.

Definition _env_bool (w : World) (name : string) (default : bool) : bool :=
  match _env w name None with
  | None => default
  | Some v => Str.mem (Str.lower v) ["1"; "true"; "yes"; "y"; "on"]
  end.

(** [not v] for a value that is [None] or a [str]. *)
Definition is_unset (v : option string) : bool :=
  match v with
  | None => true
  | Some s => String.eqb s ""
  end.

(** The [str] behind a value known not to be [None]. *)
Definition text (v : option string) : string :=
  match v with
  | Some s => s
  | None => ""
  end.

(** ** Loading the report *)

Definition _load_json (w : World) (path : string) : result json :=
  try_except
    (contents <- read_text w path ;; json_loads w contents)%result
    (fun _ => Ok JNull).

(** ** The mailer *)

(** Calls made one after the other on a session, up to the first that
    raises: the calls made so far, and the exception's text if one raised. *)
Fixpoint run_ops (server : list smtp_op -> smtp_op -> option string)
    (done todo : list smtp_op) : list smtp_op * option string :=
  match todo with
  | [] => (done, None)
  | op :: rest =>
      match server done op with
      | Some detail => ((done ++ [op])%list, Some detail)
      | None => run_ops server (done ++ [op])%list rest
      end
  end.

(** [with open_session as s: body].  When opening raises, nothing else
    happens; otherwise the body runs up to its first exception and leaving
    the block sends [QUIT], whose own exception, if any, is the one that
    leaves the block. *)
Definition with_session (w : World) (open : smtp_op) (body : list smtp_op)
  : list smtp_op * option string :=
  match smtp w [] open with
  | Some detail => ([open], Some detail)
  | None =>
      let '(done, raised) := run_ops (smtp w) [open] body in
      match smtp w done Quit with
      | Some detail => ((done ++ [Quit])%list, Some detail)
      | None => ((done ++ [Quit])%list, raised)
      end
  end.

Definition missing_env_message : string :=
  "Missing env vars. Required: DIRCAP_EMAIL_TO, DIRCAP_SMTP_SERVER, DIRCAP_SMTP_USER, DIRCAP_SMTP_PASS".

Definition _send_email (w : World) (subject body : string) : IO Z :=
  let to := _env w "DIRCAP_EMAIL_TO" None in
  let smtp_server := _env w "DIRCAP_SMTP_SERVER" None in
  let smtp_user := _env w "DIRCAP_SMTP_USER" None in
  let smtp_pass := _env w "DIRCAP_SMTP_PASS" None in
  if is_unset to || is_unset smtp_server || is_unset smtp_user || is_unset smtp_pass
  then (emit (Stderr missing_env_message) ;; io_ret 1)%io
  else
    let from_addr := _env w "DIRCAP_EMAIL_FROM" smtp_user in
    let port_str := text (_env w "DIRCAP_SMTP_PORT" (Some "465")) in
    match Str.to_Z port_str with
    | None =>
        (emit (Stderr ("Invalid DIRCAP_SMTP_PORT: " ++ port_str)) ;; io_ret 1)%io
    | Some port =>
        (* Defaults that match common SMTP practice. *)
        let use_ssl_default := port =? 465 in
        let use_tls_default := port =? 587 in
        (* User-overrides (we do NOT force anything). *)
        let use_ssl := _env_bool w "EMAIL_USE_SSL" use_ssl_default in
        let use_tls := _env_bool w "EMAIL_USE_TLS" use_tls_default in
        let msg :=
          {| msg_from := text from_addr; msg_to := text to;
             msg_subject := subject; msg_body := body |} in
        match compose_error w msg with
        | Some e => ([], Raise e)
        | None =>
            let '(calls, raised) :=
              if use_ssl then
                with_session w (ConnectSSL (text smtp_server) port 30)
                  [Login (text smtp_user) (text smtp_pass); SendMessage msg]
              else
                with_session w (Connect (text smtp_server) port 30)
                  ([Ehlo]
                     ++ (if use_tls then [StartTLS; Ehlo] else [])
                     ++ [Login (text smtp_user) (text smtp_pass);
                         SendMessage msg])%list in
            match raised with
            | None =>
                ((map Smtp calls ++ [Stdout ("Email sent to " ++ text to)])%list,
                 Ok 0)
            | Some detail =>
                ((map Smtp calls ++ [Stderr ("Email failed: " ++ detail)])%list,
                 Ok 2)
            end
        end
    end.

(** ** The entry point *)

Definition usage_message : string :=
  "Usage: send-email.py <log_txt_path> <log_json_path>".

Definition main (w : World) (argv : list string) : IO Z :=
  if negb (Nat.eqb (List.length argv) 3) then
    (emit (Stderr usage_message) ;; io_ret 2)%io
  else
    let log_txt := Path.str (nth 1 argv "") in
    let log_json := Path.str (nth 2 argv "") in
    (payload <-
       lift (present <- path_exists w log_json ;;
             if present then _load_json w log_json else Ok JNull)%result ;;
     state <- lift (_summarize payload) ;;
     let '(summary, warnings, results) := state in
     let '(subject, body) :=
       _build_message (now w) summary warnings results log_txt log_json in
     _send_email w subject body)%io.

(** [raise SystemExit(main(sys.argv))]: the exit status of the process is
    the value [main] returns, and 1 when an exception escapes it. *)
Definition exit_status (w : World) (argv : list string) : Z :=
  match snd (main w argv) with
  | Ok code => code
  | Raise _ => 1
  end.

(** ** The words of the specification *)

(** The tally "read so far", before the fallback: the entries of the
    report's own tally sub-object, each coerced to an integer ([None], a
    missing entry and every other falsy value count as 0), and all-zero
    for a report that carries no tally sub-object. *)
Definition tally_read (payload : json) : result Summary :=
  match payload with
  | JObj fields =>
      match dict_get fields "summary" with
      | Some (JObj s) =>
          (n_ok <- py_int (py_or (get s "ok" (JInt 0)) (JInt 0)) ;;
           n_warn <- py_int (py_or (get s "warn" (JInt 0)) (JInt 0)) ;;
           n_over <- py_int (py_or (get s "over" (JInt 0)) (JInt 0)) ;;
           Ok {| ok := n_ok; warn := n_warn; over := n_over |})%result
      | _ => Ok {| ok := 0; warn := 0; over := 0 |}
      end
  | _ => Ok {| ok := 0; warn := 0; over := 0 |}
  end.

(** The result records of a report: the structured entries of its results
    list (verbose shape) or of the report itself (flat shape). *)
Definition records_read (payload : json) : list dict :=
  match payload with
  | JObj fields =>
      match dict_get fields "results" with
      | Some (JArr r) => only_dicts r
      | _ => []
      end
  | JArr items => only_dicts items
  | _ => []
  end.

(** The warning strings of a report: its warnings, as text, blank ones
    dropped. *)
Definition warnings_read (payload : json) : list string :=
  match payload with
  | JObj fields =>
      match dict_get fields "warnings" with
      | Some (JArr w) =>
          map py_str
            (filter (fun x => negb (String.eqb (Str.strip (py_str x)) "")) w)
      | _ => []
      end
  | _ => []
  end.

(** "A record whose status equals [label]": the status field is present
    and is the string [label]. *)
Definition status_equals (label : string) (r : dict) : bool :=
  match dict_get r "status" with
  | Some (JStr s) => String.eqb s label
  | _ => false
  end.

Definition records_with_status (label : string) (results : list dict) : Z :=
  Z.of_nat (List.length (filter (status_equals label) results)).

Definition all_zero (t : Summary) : bool :=
  (ok t =? 0) && (warn t =? 0) && (over t =? 0).

(** The row of a record without the bytes suffix, and the suffix. *)
Definition row_base (r : dict) : string :=
  "- " ++ Str.ljust 4 (py_str (get r "status" (JStr ""))) ++ " "
       ++ Str.rjust 4 (py_str (get r "pct_used" (JStr ""))) ++ "%  "
       ++ py_str (get r "name" (JStr "")) ++ "  |  "
       ++ py_str (get r "path" (JStr "")).

Definition bytes_suffix (used limit : string) : string :=
  " (" ++ used ++ "B/" ++ limit ++ "B)".

(** "The field is a present integer", read on the JSON document. *)
Definition present_integer (r : dict) (key : string) : Prop :=
  exists n, dict_get r key = Some (JInt n).

(** The field is present and an integer or a boolean. *)
Definition present_int_or_bool (r : dict) (key : string) : Prop :=
  (exists n, dict_get r key = Some (JInt n))
  \/ (exists b, dict_get r key = Some (JBool b)).

(** The SMTP calls of a trace, and "some call of the trace raised". *)
Definition smtp_calls (trace : list event) : list smtp_op :=
  flat_map (fun e => match e with Smtp op => [op] | _ => [] end) trace.

Definition raised_with (w : World) (calls : list smtp_op) (detail : string)
  : Prop :=
  exists done op rest,
    calls = (done ++ op :: rest)%list /\ smtp w done op = Some detail.

Definition is_stdout (e : event) : bool :=
  match e with
  | Stdout _ => true
  | _ => false
  end.

(** The body of the message built for an absent report. *)
Definition fallback_body (timestamp log_txt log_json : string) : string :=
  Str.join nl
    [ "dircap detected a cap breach.";
      "";
      "Summary: OK=0  WARN=0  OVER=0";
      "Time:    " ++ timestamp;
      "";
      "Affected folders: (could not parse details from JSON)";
      "";
      "Logs:";
      "- Text: " ++ log_txt;
      "- JSON: " ++ log_json;
      "";
      "Tip: Open the text log for the full Rich table output." ]%string.

(** ** Sample reports and worlds *)

Definition flat_report : json :=
  JArr [ JObj [("status", JStr "OK")]; JObj [("status", JStr "WARN")];
         JObj [("status", JStr "OVER")]; JObj [("status", JStr "OVER")] ].

Definition verbose_report : json :=
  JObj [ ("summary", JObj [("ok", JInt 3); ("warn", JInt 1); ("over", JInt 0)]);
         ("results", JArr [JObj [("status", JStr "WARN")]]) ].

Definition negative_report : json :=
  JObj [ ("summary", JObj [("ok", JInt (-1))]) ].

Definition bad_tally_report (key : string) : json :=
  JObj [ ("summary", JObj [(key, JStr "abc")]) ].

Definition logs_record : dict :=
  [ ("status", JStr "WARN"); ("pct_used", JInt 91); ("name", JStr "logs");
    ("path", JStr "/var/logs"); ("used_bytes", JInt 910);
    ("limit_bytes", JInt 1000) ].

Definition flagged_record : dict :=
  [ ("status", JStr "WARN"); ("pct_used", JInt 91); ("name", JStr "logs");
    ("path", JStr "/var/logs"); ("used_bytes", JBool true);
    ("limit_bytes", JBool false) ].

Definition morning : datetime :=
  {| year := 2024; month := 3; day := 9;
     hour := 7; minute := 5; second := 0; microsecond := 0 |}.

Definition a_second_later : datetime :=
  {| year := 2024; month := 3; day := 9;
     hour := 7; minute := 5; second := 1; microsecond := 0 |}.

Definition env_of (bindings : list (string * string)) (name : string)
  : option string :=
  option_map snd (find (fun kv => String.eqb (fst kv) name) bindings).

Definition settings : list (string * string) :=
  [ ("DIRCAP_EMAIL_TO", "ops@example.org");
    ("DIRCAP_SMTP_SERVER", "mail.example.org");
    ("DIRCAP_SMTP_USER", "dircap");
    ("DIRCAP_SMTP_PASS", "secret") ].

(** A world with the given environment, report file and server; the report
    file is present exactly when [report] is given. *)
Definition world_of (bindings : list (string * string))
    (report : option (result json))
    (server : list smtp_op -> smtp_op -> option string) : World :=
  {| getenv := env_of bindings;
     path_exists :=
       fun _ => Ok match report with Some _ => true | None => false end;
     read_text := fun _ => Ok "";
     json_loads :=
       fun _ => match report with Some r => r | None => Raise ValueError end;
     now := morning;
     compose_error := fun _ => None;
     smtp := server |}.

Definition accepting : list smtp_op -> smtp_op -> option string :=
  fun _ _ => None.

Definition rejecting_login : list smtp_op -> smtp_op -> option string :=
  fun _ op =>
    match op with
    | Login _ _ => Some "(535, b'authentication failed')"
    | _ => None
    end.

Definition sample_argv : list string :=
  ["send-email.py"; "dircap-last.txt"; "dircap-last.json"].

(** All settings present, default port, no report file, a server that
    accepts every call. *)
Definition quiet_world : World := world_of settings None accepting.

(** The same with a server that rejects the credentials. *)
Definition rejecting_world : World := world_of settings None rejecting_login.

(** The same as [quiet_world], without the recipient. *)
Definition no_recipient_world : World :=
  world_of (tl settings) None accepting.

(** The same as [quiet_world], with a port that is no number. *)
Definition bad_port_world : World :=
  world_of (("DIRCAP_SMTP_PORT", "smtp") :: settings) None accepting.

(** The same as [quiet_world], on port 2525. *)
Definition plain_port_world : World :=
  world_of (("DIRCAP_SMTP_PORT", "2525") :: settings) None accepting.

(** The same as [quiet_world], with a report file that does not parse. *)
Definition corrupt_report_world : World :=
  world_of settings (Some (Raise ValueError)) accepting.

(** The same as [quiet_world], with a report whose tally holds ["abc"]. *)
Definition bad_tally_world : World :=
  world_of settings (Some (Ok (bad_tally_report "ok"))) accepting.

(** A setting is missing: the variable is not set, or holds blanks only. *)
Definition missing (w : World) (name : string) : Prop :=
  getenv w name = None
  \/ exists v, getenv w name = Some v /\ Str.strip v = "".

Definition required_settings : list string :=
  [ "DIRCAP_EMAIL_TO"; "DIRCAP_SMTP_SERVER"; "DIRCAP_SMTP_USER";
    "DIRCAP_SMTP_PASS" ].

(** How the mailer ends once its session is over: the calls it made, then
    the confirmation and 0, or the failure detail and 2. *)
Definition conclude (to : string) (session : list smtp_op * option string)
  : IO Z :=
  match session with
  | (calls, None) =>
      ((map Smtp calls ++ [Stdout ("Email sent to " ++ to)])%list, Ok 0)
  | (calls, Some detail) =>
      ((map Smtp calls ++ [Stderr ("Email failed: " ++ detail)])%list, Ok 2)
  end.

(** The session the mailer runs for given transport flags. *)
Definition planned_session (w : World) (use_ssl use_tls : bool)
    (server : string) (port : Z) (user password : string) (msg : message)
  : list smtp_op * option string :=
  if use_ssl then
    with_session w (ConnectSSL server port 30)
      [Login user password; SendMessage msg]
  else
    with_session w (Connect server port 30)
      ([Ehlo] ++ (if use_tls then [StartTLS; Ehlo] else [])
         ++ [Login user password; SendMessage msg])%list.

(** The text [part] stands somewhere in [whole]. *)
Definition contains (whole part : string) : Prop :=
  exists before after, whole = before ++ part ++ after.

(** What the entry point hands to the summarizer (line 238 of the script):
    the loaded report when the path exists, [None] otherwise. *)
Definition loaded_report (w : World) (path : string) : result json :=
  (present <- path_exists w path ;;
   if present then _load_json w path else Ok JNull)%result.

(** A character that is no capital letter of the ASCII alphabet. *)
Definition not_upper (c : ascii) : bool :=
  negb ((65 <=? Str.code c) && (Str.code c <=? 90))%N.

(** The three status labels. *)
Definition labels : list string := ["OK"; "WARN"; "OVER"].

(** ** Words for the further properties *)

(** The tokens [_env_bool] reads as true. *)
Definition truthy_tokens : list string := ["1"; "true"; "yes"; "y"; "on"].

(** The report is an object whose "summary" entry is an object. *)
Definition has_tally (payload : json) : bool :=
  match payload with
  | JObj fields =>
      match dict_get fields "summary" with
      | Some (JObj _) => true
      | _ => false
      end
  | _ => false
  end.



(** The status of the record is one of the three labels. *)
Definition known_status (r : dict) : bool :=
  status_equals "OK" r || status_equals "WARN" r || status_equals "OVER" r.

(** The records whose status is WARN or OVER, in their order. *)
Definition affected_rows (results : list dict) : list dict :=
  filter (fun r => status_equals "WARN" r || status_equals "OVER" r) results.

(** The sections of the body, as lists of lines. *)
Definition intro_lines (t : datetime) (summary : Summary) : list string :=
  [ "dircap detected a cap breach.";
    "";
    "Summary: OK=" ++ Str.of_Z (ok summary) ++ "  WARN="
      ++ Str.of_Z (warn summary) ++ "  OVER=" ++ Str.of_Z (over summary);
    "Time:    " ++ strftime t;
    "" ]%string.

Definition warnings_lines (warnings : list string) : list string :=
  match warnings with
  | [] => []
  | _ => ["Warnings:"] ++ map (fun w => ("- " ++ w)%string) warnings ++ [""]
  end%list.

Definition logs_lines (log_txt log_json : string) : list string :=
  [ "Logs:";
    "- Text: " ++ log_txt;
    "- JSON: " ++ log_json;
    "";
    "Tip: Open the text log for the full Rich table output." ]%string.

(** Every [Login] of the calls comes after a [StartTLS]. *)
Fixpoint login_guarded (upgraded : bool) (calls : list smtp_op) : bool :=
  match calls with
  | [] => true
  | StartTLS :: rest => login_guarded true rest
  | Login _ _ :: rest => upgraded && login_guarded upgraded rest
  | _ :: rest => login_guarded upgraded rest
  end.

(** The world [w] with other answers of the file system. *)
Definition with_files (w : World) (exists_ : string -> result bool)
    (read : string -> result string) : World :=
  {| getenv := getenv w;
     path_exists := exists_;
     read_text := read;
     json_loads := json_loads w;
     now := now w;
     compose_error := compose_error w;
     smtp := smtp w |}.

(** The same as [quiet_world], with both transport flags switched on. *)
Definition both_flags_world : World :=
  world_of (("EMAIL_USE_SSL", "1") :: ("EMAIL_USE_TLS", "1") :: settings)
           None accepting.

(** The same as [quiet_world], on port 587. *)
Definition upgrade_port_world : World :=
  world_of (("DIRCAP_SMTP_PORT", "587") :: settings) None accepting.

(** The same as [quiet_world], with the flat sample report on disk. *)
Definition flat_report_world : World :=
  world_of settings (Some (Ok flat_report)) accepting.

(** * Properties *)

(** ** The built-ins on sample values *)

Example int_of_str_samples :
  map Str.to_Z ["465"; " 587 "; "+25"; "-1"; "2_525"; "007"; ""; "smtp";
                "4 65"; "1__0"; "_1"; "1_"; "0x1f"; "1e3"; "25.0"]
  = [Some 465; Some 587; Some 25; Some (-1); Some 2525; Some 7; None; None;
     None; None; None; None; None; None; None].
Proof.
  reflexivity.
Qed.

Example str_repr_samples :
  map Str.repr ["logs"; "it's"; "a\b"]
  = ["'logs'"; String Str.dquote ("it's" ++ String Str.dquote ""); "'a\\b'"].
Proof.
  reflexivity.
Qed.

(** 0.1, 2.5, 91.0, 1e16, 1.5e-5 and -0.75 as binary64 values. *)
Example float_repr_samples :
  map Float.repr
    [ S754_finite false 7205759403792794 (-56);
      S754_finite false 5 (-1);
      S754_finite false 91 0;
      S754_finite false 10000000000000000 0;
      S754_finite false 8854437155380585 (-69);
      S754_finite true 3 (-2);
      S754_zero false; S754_nan; S754_infinity true ]
  = ["0.1"; "2.5"; "91.0"; "1e+16"; "1.5e-05"; "-0.75"; "0.0"; "nan"; "-inf"].
Proof.
  vm_compute. reflexivity.
Qed.

Example float_to_int_samples :
  map Float.to_Z
    [ S754_finite false 5 (-1); S754_finite true 3 (-1);
      S754_finite false 91 0; S754_nan; S754_infinity false ]
  = [Ok 2; Ok (-1); Ok 91; Raise ValueError; Raise OverflowError].
Proof.
  reflexivity.
Qed.

Example py_str_samples :
  map py_str
    [ JNull; JBool true; JInt (-12); JStr "WARN";
      JArr [JInt 1; JStr "a"; JNull];
      JObj [("name", JStr "logs"); ("pct_used", JFloat (S754_finite false 5 (-1)))] ]
  = ["None"; "True"; "-12"; "WARN"; "[1, 'a', None]";
     "{'name': 'logs', 'pct_used': 2.5}"].
Proof.
  vm_compute. reflexivity.
Qed.

Example path_str_samples :
  map Path.str [""; "."; "a//b/"; "./a/./b"; "/"; "//a"; "///a"; "a/../b"]
  = ["."; "."; "a/b"; "a/b"; "/"; "//a"; "/a"; "a/../b"].
Proof.
  reflexivity.
Qed.

Example env_bool_samples :
  map (fun v =>
         _env_bool (world_of [("EMAIL_USE_SSL", v)] None accepting)
                   "EMAIL_USE_SSL" false)
      ["1"; " Yes "; "TRUE"; "on"; "y"; "0"; "no"; "enabled"]
  = [true; true; true; true; true; false; false; false]
  /\ _env_bool (world_of [("EMAIL_USE_SSL", "  ")] None accepting)
               "EMAIL_USE_SSL" true = true.
Proof.
  split; reflexivity.
Qed.

(** The subject for two records over and one in warning. *)
Example subject_two_over_one_warn :
  forall t warnings results log_txt log_json,
    fst (_build_message t {| ok := 0; warn := 1; over := 2 |}
                        warnings results log_txt log_json)
    = "dircap alert: OVER=2 WARN=1".
Proof.
  reflexivity.
Qed.

(** ** Strings *)

Lemma append_empty_r (s : string) : s ++ "" = s.
Proof.
  induction s as [|c s IH]; simpl; [reflexivity | now rewrite IH].
Qed.

Lemma append_assoc (a b c : string) : (a ++ b) ++ c = a ++ (b ++ c).
Proof.
  induction a as [|x a IH]; simpl; [reflexivity | now rewrite IH].
Qed.

Lemma append_length (a b : string) :
  String.length (a ++ b) = (String.length a + String.length b)%nat.
Proof.
  induction a as [|x a IH]; simpl; [reflexivity | now rewrite IH].
Qed.

Lemma append_inv_head (p a b : string) : p ++ a = p ++ b -> a = b.
Proof.
  induction p as [|x p IH]; simpl; intros H; [exact H |].
  injection H as H. now apply IH.
Qed.

Lemma append_inv_tail (a b r : string) : a ++ r = b ++ r -> a = b.
Proof.
  revert b. induction a as [|x a IH]; intros [|y b] H; simpl in H.
  - reflexivity.
  - apply (f_equal String.length) in H. simpl in H.
    rewrite append_length in H. lia.
  - apply (f_equal String.length) in H. simpl in H.
    rewrite append_length in H. lia.
  - injection H as Hx H. subst y. f_equal. now apply IH.
Qed.

Lemma all_chars_app (p : ascii -> bool) (a b : string) :
  Str.all_chars p (a ++ b) = Str.all_chars p a && Str.all_chars p b.
Proof.
  induction a as [|x a IH]; simpl; [reflexivity |].
  now rewrite IH, andb_assoc.
Qed.

Lemma all_chars_replicate (p : ascii -> bool) (n : nat) (c : ascii) :
  p c = true -> Str.all_chars p (Str.replicate n c) = true.
Proof.
  intros Hc. induction n as [|n IH]; simpl; [reflexivity |].
  now rewrite Hc, IH.
Qed.

Lemma all_chars_substring (p : ascii -> bool) (s : string) :
  Str.all_chars p s = true ->
  forall n m, Str.all_chars p (substring n m s) = true.
Proof.
  induction s as [|c s IH]; intros H n m.
  - destruct n, m; reflexivity.
  - simpl in H. apply andb_true_iff in H as [Hc Hs].
    destruct n as [|n]; simpl.
    + destruct m as [|m]; simpl; [reflexivity |].
      now rewrite Hc, (IH Hs 0%nat m).
    + now apply IH.
Qed.

(** ** Text of numbers: no capital letter in it *)

Lemma digits_not_upper (d : Decimal.uint) :
  Str.all_chars not_upper (NilEmpty.string_of_uint d) = true.
Proof.
  induction d; simpl; try reflexivity; exact IHd.
Qed.

Lemma of_Z_not_upper (n : Z) : Str.all_chars not_upper (Str.of_Z n) = true.
Proof.
  unfold Str.of_Z. destruct n as [|p|p]; simpl.
  - reflexivity.
  - unfold NilZero.string_of_uint.
    destruct (Pos.to_uint p); try reflexivity; apply digits_not_upper.
  - unfold NilZero.string_of_uint.
    destruct (Pos.to_uint p); try reflexivity; apply digits_not_upper.
Qed.

Lemma shortest_not_upper (m : positive) (e : Z) :
  Str.all_chars not_upper (fst (Float.shortest m e)) = true.
Proof.
  unfold Float.shortest.
  destruct (Float.canonical m e) as [m' e'].
  destruct (Decimal.nztail _) as [kept zeros]. simpl.
  apply digits_not_upper.
Qed.

Lemma layout_not_upper (digits : string) (decpt : Z) :
  Str.all_chars not_upper digits = true ->
  Str.all_chars not_upper (Float.layout digits decpt) = true.
Proof.
  intros Hd. unfold Float.layout.
  destruct ((decpt <=? -4) || (16 <? decpt)).
  - rewrite !all_chars_app, of_Z_not_upper.
    assert (Hm : Str.all_chars not_upper
                   match digits with
                   | String d EmptyString => digits
                   | String d r => String d (String "." r)
                   | EmptyString => EmptyString
                   end = true).
    { destruct digits as [|d [|d' r]]; exact Hd. }
    rewrite Hm.
    destruct (decpt - 1 <? 0), (Z.abs (decpt - 1) <? 10); reflexivity.
  - destruct (decpt <=? 0).
    + rewrite !all_chars_app, Hd, all_chars_replicate; reflexivity.
    + destruct (Z.of_nat (String.length digits) <=? decpt).
      * rewrite !all_chars_app, Hd, all_chars_replicate; reflexivity.
      * rewrite !all_chars_app, !all_chars_substring by exact Hd.
        reflexivity.
Qed.

Lemma float_repr_not_upper (f : spec_float) :
  Str.all_chars not_upper (Float.repr f) = true.
Proof.
  destruct f as [s|s| |s m e]; simpl.
  - destruct s; reflexivity.
  - destruct s; reflexivity.
  - reflexivity.
  - pose proof (shortest_not_upper m e) as H.
    destruct (Float.shortest m e) as [digits decpt]. simpl in H.
    rewrite all_chars_app, layout_not_upper by exact H.
    destruct s; reflexivity.
Qed.

(** [str(v)] is one of the status labels only when [v] is that string. *)
Lemma py_str_label (v : json) (label : string) :
  In label labels -> py_str v = label -> v = JStr label.
Proof.
  intros Hl H.
  assert (Hup : Str.all_chars not_upper label = false).
  { destruct Hl as [<-|[<-|[<-|[]]]]; reflexivity. }
  destruct v as [|b|n|f|s|items|fields]; simpl in H.
  - destruct Hl as [<-|[<-|[<-|[]]]]; discriminate H.
  - destruct b, Hl as [<-|[<-|[<-|[]]]]; discriminate H.
  - rewrite <- H, of_Z_not_upper in Hup. discriminate.
  - rewrite <- H, float_repr_not_upper in Hup. discriminate.
  - now subst.
  - destruct Hl as [<-|[<-|[<-|[]]]]; discriminate H.
  - destruct Hl as [<-|[<-|[<-|[]]]]; discriminate H.
Qed.

(** ** The summarizer *)

(** The test the code counts with, [str(r.get("status")) == label], holds
    exactly for the records whose status is the string [label]. *)
Lemma status_test_spec (label : string) (r : dict) :
  In label labels ->
  String.eqb (py_str (get r "status" JNull)) label = status_equals label r.
Proof.
  intros Hl. unfold get, status_equals.
  destruct (dict_get r "status") as [v|].
  - destruct (String.eqb_spec (py_str v) label) as [E|E].
    + rewrite (py_str_label v label Hl E). symmetry. apply String.eqb_refl.
    + destruct v; try reflexivity.
      symmetry. now apply String.eqb_neq.
  - destruct Hl as [<-|[<-|[<-|[]]]]; reflexivity.
Qed.

Lemma count_status_spec (label : string) (results : list dict) :
  In label labels ->
  count_status label results = records_with_status label results.
Proof.
  intros Hl. unfold count_status, records_with_status.
  do 2 f_equal. apply filter_ext. intros r. now apply status_test_spec.
Qed.

(** What the summarizer returns, given the tally it read. *)
Lemma summarize_returns (payload : json) (t : Summary) :
  tally_read payload = Ok t ->
  _summarize payload =
    Ok (if all_zero t && negb (Nat.eqb (List.length (records_read payload)) 0)
        then {| ok := records_with_status "OK" (records_read payload);
                warn := records_with_status "WARN" (records_read payload);
                over := records_with_status "OVER" (records_read payload) |}
        else t,
        warnings_read payload, records_read payload).
Proof.
  intros H.
  assert (E : _summarize payload =
    Ok (if all_zero t && negb (Nat.eqb (List.length (records_read payload)) 0)
        then {| ok := count_status "OK" (records_read payload);
                warn := count_status "WARN" (records_read payload);
                over := count_status "OVER" (records_read payload) |}
        else t,
        warnings_read payload, records_read payload)).
  { unfold _summarize, tally_read, all_zero in *.
    destruct payload as [| | | | |items|fields]; simpl in *;
      try (injection H as <-; reflexivity).
    destruct (dict_get fields "summary") as [[| | | | | |s]|]; simpl in *;
      try (injection H as <-; reflexivity).
    destruct (py_int (py_or (get s "ok" (JInt 0)) (JInt 0))); simpl in *;
      [|discriminate].
    destruct (py_int (py_or (get s "warn" (JInt 0)) (JInt 0))); simpl in *;
      [|discriminate].
    destruct (py_int (py_or (get s "over" (JInt 0)) (JInt 0))); simpl in *;
      [|discriminate].
    injection H as <-. reflexivity. }
  rewrite E, !count_status_spec; [reflexivity | | |]; unfold labels; simpl; auto.
Qed.

(** An exception raised while the tally is read escapes the summarizer. *)
Lemma summarize_raises (payload : json) (e : exn) :
  tally_read payload = Raise e -> _summarize payload = Raise e.
Proof.
  unfold _summarize, tally_read.
  destruct payload as [| | | | |items|fields]; simpl; try discriminate.
  destruct (dict_get fields "summary") as [[| | | | | |s]|]; simpl;
    try discriminate.
  destruct (py_int (py_or (get s "ok" (JInt 0)) (JInt 0))); simpl;
    [|intros H; now injection H as <-].
  destruct (py_int (py_or (get s "warn" (JInt 0)) (JInt 0))); simpl;
    [|intros H; now injection H as <-].
  destruct (py_int (py_or (get s "over" (JInt 0)) (JInt 0))); simpl;
    [|intros H; now injection H as <-].
  discriminate.
Qed.

(** C4. The summarizer recomputes the tally by counting the records whose
    status equals "OK", "WARN" and "OVER" exactly when the tally read so
    far is (0,0,0) and the results list is not empty, and keeps the tally
    it read otherwise; the flat list of one OK, one WARN and two OVER
    records yields (1,1,2), and the verbose report with tally (3,1,0) and
    one WARN record yields that tally. *)
Theorem summarize_fallback_rule :
  (forall payload t,
     tally_read payload = Ok t ->
     exists s,
       _summarize payload = Ok (s, warnings_read payload, records_read payload)
       /\ (all_zero t = true /\ records_read payload <> [] ->
           s = {| ok := records_with_status "OK" (records_read payload);
                  warn := records_with_status "WARN" (records_read payload);
                  over := records_with_status "OVER" (records_read payload) |})
       /\ (~ (all_zero t = true /\ records_read payload <> []) -> s = t))
  /\ _summarize flat_report =
       Ok ({| ok := 1; warn := 1; over := 2 |}, [],
           [ [("status", JStr "OK")]; [("status", JStr "WARN")];
             [("status", JStr "OVER")]; [("status", JStr "OVER")] ])
  /\ _summarize verbose_report =
       Ok ({| ok := 3; warn := 1; over := 0 |}, [], [ [("status", JStr "WARN")] ]).
Proof.
  split; [|split; reflexivity].
  intros payload t H. rewrite (summarize_returns payload t H).
  eexists. split; [reflexivity |].
  destruct (all_zero t); simpl.
  - destruct (records_read payload) as [|r rs]; simpl.
    + split; [intros [_ Hne]; now contradiction Hne | reflexivity].
    + split; [reflexivity | intros Hn; exfalso; apply Hn; split; [reflexivity | discriminate]].
  - split; [intros [Hz _]; discriminate Hz | reflexivity].
Qed.

Lemma records_with_status_nonneg (label : string) (results : list dict) :
  0 <= records_with_status label results.
Proof.
  unfold records_with_status. apply Nat2Z.is_nonneg.
Qed.

(** C3, amended.  For every report whose own tally sub-object, when it
    supplies one, coerces entry by entry to non-negative integers (every
    report without a tally sub-object is such a report), the summarizer
    returns three non-negative integer counters. *)
Theorem summarize_counters_nonnegative (payload : json) (t : Summary) :
  tally_read payload = Ok t ->
  0 <= ok t -> 0 <= warn t -> 0 <= over t ->
  exists s warnings results,
    _summarize payload = Ok (s, warnings, results)
    /\ 0 <= ok s /\ 0 <= warn s /\ 0 <= over s.
Proof.
  intros H Hok Hwarn Hover.
  rewrite (summarize_returns payload t H).
  do 3 eexists. split; [reflexivity |].
  destruct (all_zero t && _); simpl.
  - repeat split; apply records_with_status_nonneg.
  - repeat split; assumption.
Qed.

Lemma summarize_counters_nonnegative_witness :
  exists s warnings results,
    _summarize flat_report = Ok (s, warnings, results)
    /\ 0 <= ok s /\ 0 <= warn s /\ 0 <= over s.
Proof.
  apply (summarize_counters_nonnegative flat_report
           {| ok := 0; warn := 0; over := 0 |});
    [reflexivity | simpl; lia | simpl; lia | simpl; lia].
Defined.

(** C3 as stated fails: a tally sub-object that supplies a negative entry
    is kept, so a counter of the summary is negative. *)
Lemma summarize_negative_counter :
  exists s warnings results,
    _summarize negative_report = Ok (s, warnings, results) /\ ok s < 0.
Proof.
  exists {| ok := -1; warn := 0; over := 0 |}, [], [].
  split; [reflexivity | simpl; lia].
Qed.

(** ** The entry point *)

Lemma main_usage (w : World) (argv : list string) :
  List.length argv <> 3%nat ->
  main w argv = ([Stderr usage_message], Ok 2).
Proof.
  intros H. unfold main.
  destruct (Nat.eqb_spec (List.length argv) 3) as [E|E]; [contradiction |].
  reflexivity.
Qed.

(** With three arguments the entry point loads, summarizes, builds and
    hands over to the mailer. *)
Lemma main_steps (w : World) (prog log_txt log_json : string) :
  main w [prog; log_txt; log_json] =
    (payload <- lift (loaded_report w (Path.str log_json)) ;;
     state <- lift (_summarize payload) ;;
     let '(summary, warnings, results) := state in
     let '(subject, body) :=
       _build_message (now w) summary warnings results
                      (Path.str log_txt) (Path.str log_json) in
     _send_email w subject body)%io.
Proof.
  reflexivity.
Qed.

Lemma io_bind_lift_ok {A B : Type} (a : A) (k : A -> IO B) :
  io_bind (lift (Ok a)) k = k a.
Proof.
  unfold io_bind, lift. destruct (k a) as [t r]. reflexivity.
Qed.

Lemma io_bind_lift_raise {A B : Type} (e : exn) (k : A -> IO B) :
  io_bind (lift (Raise e)) k = ([], Raise e).
Proof.
  reflexivity.
Qed.

(** C9. The summarizer is not total: a verbose report whose tally maps ok,
    warn or over to a value that cannot be coerced to an integer, such as
    the string "abc", makes the coercion raise; the exception escapes the
    summarizer and the entry point, which performs nothing else, so the
    run ends with an uncaught error. *)
Theorem summarize_not_total :
  (forall key, In key ["ok"; "warn"; "over"] ->
     _summarize (bad_tally_report key) = Raise ValueError)
  /\ (forall payload e,
        tally_read payload = Raise e -> _summarize payload = Raise e)
  /\ (forall w prog log_txt log_json payload e,
        path_exists w (Path.str log_json) = Ok true ->
        _load_json w (Path.str log_json) = Ok payload ->
        tally_read payload = Raise e ->
        main w [prog; log_txt; log_json] = ([], Raise e)
        /\ exit_status w [prog; log_txt; log_json] = 1)
  /\ main bad_tally_world sample_argv = ([], Raise ValueError).
Proof.
  split; [|split; [|split]].
  - intros key [<-|[<-|[<-|[]]]]; reflexivity.
  - exact summarize_raises.
  - intros w prog log_txt log_json payload e Hex Hload Htally.
    assert (E : main w [prog; log_txt; log_json] = ([], Raise e)).
    { rewrite main_steps. unfold loaded_report. rewrite Hex. cbn [rbind].
      rewrite Hload, io_bind_lift_ok.
      rewrite (summarize_raises payload e Htally). reflexivity. }
    split; [exact E |]. unfold exit_status. now rewrite E.
  - reflexivity.
Qed.

(** ** Configuration *)

Lemma env_missing (w : World) (name : string) :
  missing w name <-> _env w name None = None.
Proof.
  unfold missing, _env. split.
  - intros [H|[v [H Hv]]]; rewrite H; [reflexivity |].
    rewrite Hv. reflexivity.
  - destruct (getenv w name) as [v|]; [|now left].
    destruct (String.eqb_spec (Str.strip v) "") as [E|E]; simpl.
    + intros _. right. now exists v.
    + discriminate.
Qed.

Lemma env_not_empty (w : World) (name : string) (default : option string) :
  is_unset default = false -> is_unset (_env w name default) = false.
Proof.
  intros Hd. unfold _env.
  destruct (getenv w name) as [v|]; [|exact Hd].
  destruct (String.eqb (Str.strip v) "") eqn:E; simpl; [exact Hd | exact E].
Qed.

Lemma env_set (w : World) (name value : string) :
  _env w name None = Some value -> is_unset (_env w name None) = false.
Proof.
  intros H. unfold _env in *.
  destruct (getenv w name) as [v|]; [|discriminate].
  destruct (String.eqb (Str.strip v) "") eqn:E; simpl in *; [discriminate |].
  exact E.
Qed.

(** ** The SMTP session *)

Lemma run_ops_accepted server (todo done calls : list smtp_op) :
  run_ops server done todo = (calls, None) ->
  calls = (done ++ todo)%list
  /\ forall d op r, todo = (d ++ op :: r)%list -> server (done ++ d)%list op = None.
Proof.
  revert done. induction todo as [|op rest IH]; intros done H; simpl in H.
  - injection H as <-. split; [now rewrite app_nil_r |].
    intros [|x d] op r E; discriminate E.
  - destruct (server done op) eqn:Eop; [discriminate |].
    destruct (IH _ H) as [Hc Hall]. split.
    + rewrite Hc, <- app_assoc. reflexivity.
    + intros [|x d] op' r E; simpl in E; injection E as -> ->.
      * now rewrite app_nil_r.
      * specialize (Hall d op' r eq_refl).
        now rewrite <- app_assoc in Hall.
Qed.

Lemma run_ops_raised server (todo done calls : list smtp_op) (detail : string) :
  run_ops server done todo = (calls, Some detail) ->
  exists d op r,
    todo = (d ++ op :: r)%list /\ calls = (done ++ d ++ [op])%list
    /\ server (done ++ d)%list op = Some detail.
Proof.
  revert done. induction todo as [|op rest IH]; intros done H; simpl in H.
  - discriminate.
  - destruct (server done op) as [x|] eqn:Eop.
    + injection H as <- <-. exists [], op, rest.
      now rewrite app_nil_r.
    + destruct (IH _ H) as (d & op' & r & -> & -> & Hs).
      exists (op :: d), op', r. rewrite <- !app_assoc in *. simpl in *.
      repeat split; assumption.
Qed.

Lemma run_ops_calls server (todo done calls : list smtp_op) raised :
  run_ops server done todo = (calls, raised) ->
  exists made, calls = (done ++ made)%list /\ incl made todo.
Proof.
  revert done. induction todo as [|op rest IH]; intros done H; simpl in H.
  - injection H as <- _. exists []. split; [now rewrite app_nil_r | easy].
  - destruct (server done op) as [x|] eqn:Eop.
    + injection H as <- _. exists [op]. split; [reflexivity |].
      intros y [<-|[]]. now left.
    + destruct (IH _ H) as (made & -> & Hin).
      exists (op :: made). rewrite <- app_assoc. split; [reflexivity |].
      intros y [<-|Hy]; [now left | right; now apply Hin].
Qed.

(** A session that ends without an exception: every call was accepted. *)
Lemma with_session_accepted (w : World) open body calls :
  with_session w open body = (calls, None) ->
  forall d op r, calls = (d ++ op :: r)%list -> smtp w d op = None.
Proof.
  unfold with_session. destruct (smtp w [] open) eqn:Eopen; [discriminate |].
  destruct (run_ops (smtp w) [open] body) as [done raised] eqn:Erun.
  destruct (smtp w done Quit) eqn:Equit; [discriminate |].
  intros H. injection H as <- ->.
  destruct (run_ops_accepted _ _ _ _ Erun) as [-> Hall].
  intros [|x d] op r E; simpl in E; injection E as <- E.
  - exact Eopen.
  - apply app_eq_app in E as [l [[-> E]|[-> E]]].
    + destruct l as [|y l]; simpl in E.
      * injection E as -> _. rewrite app_nil_r in Equit. exact Equit.
      * injection E as -> _. apply (Hall d y l). reflexivity.
    + destruct l as [|y l]; simpl in E.
      * injection E as <- _. rewrite app_nil_r. exact Equit.
      * injection E as _ E. destruct l; discriminate E.
Qed.

(** A session that ends with an exception: one of its calls raised it. *)
Lemma with_session_raised (w : World) open body calls detail :
  with_session w open body = (calls, Some detail) ->
  raised_with w calls detail.
Proof.
  unfold with_session, raised_with.
  destruct (smtp w [] open) as [x|] eqn:Eopen.
  - intros H. injection H as <- <-. exists [], open, []. easy.
  - destruct (run_ops (smtp w) [open] body) as [done raised] eqn:Erun.
    destruct (smtp w done Quit) as [x|] eqn:Equit.
    + intros H. injection H as <- <-. exists done, Quit, []. easy.
    + intros H. injection H as <- ->.
      destruct (run_ops_raised _ _ _ _ _ Erun) as (d & op & r & _ & -> & Hs).
      exists ([open] ++ d)%list, op, [Quit].
      split; [now rewrite <- !app_assoc | exact Hs].
Qed.

(** The calls of a session start with the opening and are among the
    opening, the body and the closing [QUIT]. *)
Lemma with_session_calls (w : World) open body calls raised :
  with_session w open body = (calls, raised) ->
  hd_error calls = Some open
  /\ forall op, In op calls -> op = open \/ In op body \/ op = Quit.
Proof.
  unfold with_session.
  destruct (smtp w [] open) as [x|] eqn:Eopen.
  - intros H. injection H as <- _. split; [reflexivity |].
    intros op [<-|[]]. now left.
  - destruct (run_ops (smtp w) [open] body) as [done r] eqn:Erun.
    destruct (run_ops_calls _ _ _ _ _ Erun) as (made & -> & Hin).
    assert (Hc : calls = (open :: made ++ [Quit])%list ->
                 hd_error calls = Some open
                 /\ forall op, In op calls -> op = open \/ In op body \/ op = Quit).
    { intros ->. split; [reflexivity |].
      intros op [<-|Hop]; [now left |].
      apply in_app_or in Hop as [Hop|[<-|[]]]; [right; left; now apply Hin |].
      now right; right. }
    destruct (smtp w ([open] ++ made)%list Quit);
      intros H; injection H as <- _; now apply Hc.
Qed.

(** ** The mailer *)

Lemma send_email_missing (w : World) (subject body name : string) :
  In name required_settings ->
  _env w name None = None ->
  _send_email w subject body = ([Stderr missing_env_message], Ok 1).
Proof.
  intros Hin H. unfold _send_email. cbv zeta.
  destruct Hin as [<-|[<-|[<-|[<-|[]]]]]; rewrite H; cbn [is_unset orb];
    rewrite ?orb_true_r; reflexivity.
Qed.

Lemma send_email_bad_port (w : World) (subject body : string)
    (to server user password : string) :
  _env w "DIRCAP_EMAIL_TO" None = Some to ->
  _env w "DIRCAP_SMTP_SERVER" None = Some server ->
  _env w "DIRCAP_SMTP_USER" None = Some user ->
  _env w "DIRCAP_SMTP_PASS" None = Some password ->
  Str.to_Z (text (_env w "DIRCAP_SMTP_PORT" (Some "465"))) = None ->
  _send_email w subject body =
    ([Stderr ("Invalid DIRCAP_SMTP_PORT: "
                ++ text (_env w "DIRCAP_SMTP_PORT" (Some "465")))],
     Ok 1).
Proof.
  intros Hto Hserver Huser Hpass Hport. unfold _send_email. cbv zeta.
  rewrite (env_set w _ _ Hto), (env_set w _ _ Hserver),
    (env_set w _ _ Huser), (env_set w _ _ Hpass).
  cbn [orb]. rewrite Hport. reflexivity.
Qed.

(** With the four settings present, a numeric port and a message the mail
    library accepts, the mailer runs the session its flags select and
    ends as the session ended. *)
Lemma send_email_session (w : World) (subject body : string)
    (to server user password : string) (port : Z) :
  _env w "DIRCAP_EMAIL_TO" None = Some to ->
  _env w "DIRCAP_SMTP_SERVER" None = Some server ->
  _env w "DIRCAP_SMTP_USER" None = Some user ->
  _env w "DIRCAP_SMTP_PASS" None = Some password ->
  Str.to_Z (text (_env w "DIRCAP_SMTP_PORT" (Some "465"))) = Some port ->
  forall msg,
    msg = {| msg_from := text (_env w "DIRCAP_EMAIL_FROM" (Some user));
             msg_to := to; msg_subject := subject; msg_body := body |} ->
    compose_error w msg = None ->
    _send_email w subject body =
      conclude to
        (planned_session w
           (_env_bool w "EMAIL_USE_SSL" (port =? 465))
           (_env_bool w "EMAIL_USE_TLS" (port =? 587))
           server port user password msg).
Proof.
  intros Hto Hserver Huser Hpass Hport msg -> Hmsg.
  unfold _send_email. cbv zeta.
  rewrite (env_set w _ _ Hto), (env_set w _ _ Hserver),
    (env_set w _ _ Huser), (env_set w _ _ Hpass).
  cbn [orb]. rewrite Hport, Hto, Hserver, Huser, Hpass. cbn [text].
  rewrite Hmsg. unfold planned_session, conclude.
  destruct (_env_bool w "EMAIL_USE_SSL" (port =? 465)).
  - destruct (with_session _ _ _) as [calls [detail|]]; reflexivity.
  - destruct (with_session _ _ _) as [calls [detail|]]; reflexivity.
Qed.

(** Every run of the mailer ends in one of four ways. *)
Lemma send_email_outcome (w : World) (subject body : string) :
  _send_email w subject body = ([Stderr missing_env_message], Ok 1)
  \/ (exists port_str,
        _send_email w subject body =
          ([Stderr ("Invalid DIRCAP_SMTP_PORT: " ++ port_str)], Ok 1))
  \/ (exists e, _send_email w subject body = ([], Raise e))
  \/ (exists to open calls_planned session,
        with_session w open calls_planned = session
        /\ _send_email w subject body = conclude to session).
Proof.
  unfold _send_email. cbv zeta.
  destruct (is_unset _ || is_unset _ || is_unset _ || is_unset _);
    [now left |].
  destruct (Str.to_Z _) as [port|]; [|right; left; eexists; reflexivity].
  destruct (compose_error w _) as [e|]; [right; right; left; now exists e |].
  right; right; right.
  destruct (_env_bool w "EMAIL_USE_SSL" (port =? 465)).
  - destruct (with_session _ _ _) as [calls failure] eqn:E.
    exists (text (_env w "DIRCAP_EMAIL_TO" None)).
    eexists _, _, _. split; [exact E |].
    destruct failure; reflexivity.
  - destruct (with_session _ _ _) as [calls failure] eqn:E.
    exists (text (_env w "DIRCAP_EMAIL_TO" None)).
    eexists _, _, _. split; [exact E |].
    destruct failure; reflexivity.
Qed.

Lemma smtp_calls_of_calls (calls : list smtp_op) (e : event) :
  (forall op, e <> Smtp op) ->
  smtp_calls (map Smtp calls ++ [e]) = calls.
Proof.
  intros He. unfold smtp_calls. rewrite flat_map_app. simpl.
  assert (E : flat_map (fun e0 => match e0 with Smtp op => [op] | _ => [] end)
                (map Smtp calls) = calls).
  { induction calls as [|c calls IH]; simpl; [reflexivity | now rewrite IH]. }
  rewrite E. destruct e; try now rewrite app_nil_r.
  now contradiction (He op).
Qed.

Lemma no_stdout_in_calls (calls : list smtp_op) :
  existsb is_stdout (map Smtp calls) = false.
Proof.
  induction calls as [|c calls IH]; simpl; [reflexivity | exact IH].
Qed.

(** When a call of the mailer's trace raised, the mailer printed the
    detail of a raised call, not the confirmation, and returned 2. *)
Lemma send_email_transport_failure (w : World) (subject body : string) :
  (exists detail,
     raised_with w (smtp_calls (fst (_send_email w subject body))) detail) ->
  exists calls detail,
    raised_with w calls detail
    /\ _send_email w subject body =
         ((map Smtp calls ++ [Stderr ("Email failed: " ++ detail)])%list, Ok 2)
    /\ existsb is_stdout (fst (_send_email w subject body)) = false.
Proof.
  intros [detail Hr].
  destruct (send_email_outcome w subject body)
    as [E|[[p E]|[[e E]|(to & open & planned & session & Hs & E)]]];
    rewrite E in Hr |- *; simpl in Hr.
  - destruct Hr as ([|x d] & op & r & Hc & _); discriminate Hc.
  - destruct Hr as ([|x d] & op & r & Hc & _); discriminate Hc.
  - destruct Hr as ([|x d] & op & r & Hc & _); discriminate Hc.
  - destruct session as [calls [failure|]]; unfold conclude in *; simpl in Hr.
    + exists calls, failure. split; [now apply (with_session_raised w open planned) |].
      split; [reflexivity |]. simpl.
      rewrite existsb_app, no_stdout_in_calls. reflexivity.
    + exfalso. rewrite smtp_calls_of_calls in Hr by discriminate.
      destruct Hr as (d & op & r & Hc & Hraise).
      rewrite (with_session_accepted w open planned calls Hs d op r Hc) in Hraise.
      discriminate.
Qed.

Lemma smtp_calls_conclude (to : string) (session : list smtp_op * option string) :
  smtp_calls (fst (conclude to session)) = fst session.
Proof.
  destruct session as [calls [detail|]]; simpl;
    apply smtp_calls_of_calls; discriminate.
Qed.

(** C5. When one of the four required settings is missing, or the port is
    not a number, the mailer prints the error for that case and returns 1
    without any call to the SMTP server; when a call made while
    connecting, authenticating or sending raised, the exception is caught,
    its detail printed, 2 returned, and the confirmation is not printed. *)
Theorem mailer_failure_codes :
  (forall w subject body name,
     In name required_settings -> missing w name ->
     _send_email w subject body = ([Stderr missing_env_message], Ok 1)
     /\ smtp_calls (fst (_send_email w subject body)) = [])
  /\ (forall w subject body to server user password,
        _env w "DIRCAP_EMAIL_TO" None = Some to ->
        _env w "DIRCAP_SMTP_SERVER" None = Some server ->
        _env w "DIRCAP_SMTP_USER" None = Some user ->
        _env w "DIRCAP_SMTP_PASS" None = Some password ->
        Str.to_Z (text (_env w "DIRCAP_SMTP_PORT" (Some "465"))) = None ->
        _send_email w subject body =
          ([Stderr ("Invalid DIRCAP_SMTP_PORT: "
                      ++ text (_env w "DIRCAP_SMTP_PORT" (Some "465")))],
           Ok 1)
        /\ smtp_calls (fst (_send_email w subject body)) = [])
  /\ (forall w subject body,
        (exists detail,
           raised_with w (smtp_calls (fst (_send_email w subject body))) detail) ->
        exists calls detail,
          raised_with w calls detail
          /\ _send_email w subject body =
               ((map Smtp calls ++ [Stderr ("Email failed: " ++ detail)])%list,
                Ok 2)
          /\ existsb is_stdout (fst (_send_email w subject body)) = false).
Proof.
  split; [|split].
  - intros w subject body name Hin Hm.
    apply env_missing in Hm.
    rewrite (send_email_missing w subject body name Hin Hm). now split.
  - intros w subject body to server user password Hto Hs Hu Hp Hport.
    rewrite (send_email_bad_port w subject body to server user password
               Hto Hs Hu Hp Hport).
    now split.
  - exact send_email_transport_failure.
Qed.

(** The three cases of C5 on sample worlds: no recipient, a port that is
    no number, and a server that rejects the login. *)
Lemma mailer_failure_codes_witness :
  (_send_email no_recipient_world "subject" "body"
     = ([Stderr missing_env_message], Ok 1)
   /\ smtp_calls (fst (_send_email no_recipient_world "subject" "body")) = [])
  /\ (_send_email bad_port_world "subject" "body"
        = ([Stderr "Invalid DIRCAP_SMTP_PORT: smtp"], Ok 1)
      /\ smtp_calls (fst (_send_email bad_port_world "subject" "body")) = [])
  /\ exists calls detail,
       raised_with rejecting_world calls detail
       /\ _send_email rejecting_world "subject" "body" =
            ((map Smtp calls ++ [Stderr ("Email failed: " ++ detail)])%list,
             Ok 2)
       /\ existsb is_stdout (fst (_send_email rejecting_world "subject" "body"))
          = false.
Proof.
  destruct mailer_failure_codes as (Hmissing & Hport & Hraised).
  split; [|split].
  - apply (Hmissing no_recipient_world "subject" "body" "DIRCAP_EMAIL_TO").
    + simpl. auto.
    + left. reflexivity.
  - apply (Hport bad_port_world "subject" "body" "ops@example.org"
             "mail.example.org" "dircap" "secret"); reflexivity.
  - apply (Hraised rejecting_world "subject" "body").
    exists "(535, b'authentication failed')",
      [ConnectSSL "mail.example.org" 465 30], (Login "dircap" "secret"), [Quit].
    split; reflexivity.
Defined.

(** C1, amended.  With any number of arguments other than two after the
    program name, the entry point prints the usage message and returns 2,
    which is the exit status.  That code is not a dedicated one: it is the
    code the mailer returns when a call of its session raised, and it
    differs from 1, the code the mailer returns for a missing setting. *)
Theorem usage_error_code (w : World) (argv : list string) :
  List.length argv <> 3%nat ->
  main w argv = ([Stderr usage_message], Ok 2)
  /\ exit_status w argv = 2
  /\ (forall w' subject body,
        (exists detail,
           raised_with w' (smtp_calls (fst (_send_email w' subject body))) detail) ->
        snd (_send_email w' subject body) = Ok 2)
  /\ (forall w' subject body name,
        In name required_settings -> missing w' name ->
        snd (_send_email w' subject body) = Ok 1).
Proof.
  intros H. pose proof (main_usage w argv H) as E.
  split; [exact E |]. split; [unfold exit_status; now rewrite E |]. split.
  - intros w' subject body Hr.
    destruct (send_email_transport_failure w' subject body Hr)
      as (calls & detail & _ & E' & _).
    now rewrite E'.
  - intros w' subject body name Hin Hm. apply env_missing in Hm.
    now rewrite (send_email_missing w' subject body name Hin Hm).
Qed.

Lemma usage_error_code_witness :
  main quiet_world ["send-email.py"; "dircap-last.txt"]
    = ([Stderr usage_message], Ok 2)
  /\ exit_status quiet_world ["send-email.py"; "dircap-last.txt"] = 2.
Proof.
  destruct (usage_error_code quiet_world ["send-email.py"; "dircap-last.txt"])
    as (Hmain & Hexit & _).
  - simpl. lia.
  - split; [exact Hmain | exact Hexit].
Defined.

(** C1 as stated fails: with the program name alone the entry point
    returns 2, not 1, and 2 is also what the mailer returns when the
    server rejects the login. *)
Lemma usage_error_code_is_two :
  main quiet_world ["send-email.py"] = ([Stderr usage_message], Ok 2)
  /\ exit_status quiet_world ["send-email.py"] = 2
  /\ 2 <> 1
  /\ snd (_send_email rejecting_world "subject" "body") = Ok 2.
Proof.
  repeat split. lia.
Qed.

(** ** Transport flags *)

Lemma env_bool_default (w : World) (name : string) (default : bool) :
  missing w name -> _env_bool w name default = default.
Proof.
  intros H. apply env_missing in H. unfold _env_bool. now rewrite H.
Qed.

(** C7. With neither EMAIL_USE_SSL nor EMAIL_USE_TLS set, the
    implicit-encryption flag is true exactly for port 465 and the
    upgrade flag exactly for port 587, and the mailer runs the session
    these two flags select; on port 2525 both are false and the session
    is a plain one: it opens without TLS and never issues STARTTLS. *)
Theorem transport_flag_defaults :
  (forall w port,
     missing w "EMAIL_USE_SSL" ->
     (_env_bool w "EMAIL_USE_SSL" (port =? 465) = true <-> port = 465))
  /\ (forall w port,
        missing w "EMAIL_USE_TLS" ->
        (_env_bool w "EMAIL_USE_TLS" (port =? 587) = true <-> port = 587))
  /\ (forall w subject body to server user password port msg,
        missing w "EMAIL_USE_SSL" ->
        missing w "EMAIL_USE_TLS" ->
        _env w "DIRCAP_EMAIL_TO" None = Some to ->
        _env w "DIRCAP_SMTP_SERVER" None = Some server ->
        _env w "DIRCAP_SMTP_USER" None = Some user ->
        _env w "DIRCAP_SMTP_PASS" None = Some password ->
        Str.to_Z (text (_env w "DIRCAP_SMTP_PORT" (Some "465"))) = Some port ->
        msg = {| msg_from := text (_env w "DIRCAP_EMAIL_FROM" (Some user));
                 msg_to := to; msg_subject := subject; msg_body := body |} ->
        compose_error w msg = None ->
        _send_email w subject body =
          conclude to
            (planned_session w (port =? 465) (port =? 587)
               server port user password msg)
        /\ (port = 2525 ->
            _env_bool w "EMAIL_USE_SSL" (port =? 465) = false
            /\ _env_bool w "EMAIL_USE_TLS" (port =? 587) = false
            /\ _send_email w subject body =
                 conclude to
                   (with_session w (Connect server 2525 30)
                      [Ehlo; Login user password; SendMessage msg])
            /\ hd_error (smtp_calls (fst (_send_email w subject body)))
                 = Some (Connect server 2525 30)
            /\ ~ In StartTLS (smtp_calls (fst (_send_email w subject body))))).
Proof.
  split; [|split].
  - intros w port H. rewrite (env_bool_default w _ _ H). apply Z.eqb_eq.
  - intros w port H. rewrite (env_bool_default w _ _ H). apply Z.eqb_eq.
  - intros w subject body to server user password port msg
      Hssl Htls Hto Hserver Huser Hpass Hport Hmsg Hcompose.
    pose proof (env_bool_default w _ (port =? 465) Hssl) as Essl.
    pose proof (env_bool_default w _ (port =? 587) Htls) as Etls.
    pose proof (send_email_session w subject body to server user password port
                  Hto Hserver Huser Hpass Hport msg Hmsg Hcompose) as Esend.
    rewrite Essl, Etls in Esend |- *.
    split; [exact Esend |].
    intros ->. split; [reflexivity |]. split; [reflexivity |].
    split; [exact Esend |].
    rewrite Esend, smtp_calls_conclude.
    unfold planned_session. simpl.
    destruct (with_session w (Connect server 2525 30)
                [Ehlo; Login user password; SendMessage msg])
      as [calls raised] eqn:Es.
    destruct (with_session_calls w _ _ _ _ Es) as [Hhd Hin]. simpl.
    split; [exact Hhd |].
    intros Hstart. destruct (Hin StartTLS Hstart) as [E|[E|E]].
    + discriminate E.
    + destruct E as [E|[E|[E|[]]]]; discriminate E.
    + discriminate E.
Qed.

Lemma transport_flag_defaults_witness :
  (_env_bool plain_port_world "EMAIL_USE_SSL" (465 =? 465) = true <-> 465 = 465)
  /\ (_env_bool plain_port_world "EMAIL_USE_TLS" (2525 =? 587) = true
      <-> 2525 = 587)
  /\ hd_error (smtp_calls (fst (_send_email plain_port_world "subject" "body")))
       = Some (Connect "mail.example.org" 2525 30)
  /\ ~ In StartTLS
         (smtp_calls (fst (_send_email plain_port_world "subject" "body"))).
Proof.
  destruct transport_flag_defaults as (Hssl & Htls & Hsession).
  split; [apply (Hssl plain_port_world 465); left; reflexivity |].
  split; [apply (Htls plain_port_world 2525); left; reflexivity |].
  destruct (Hsession plain_port_world "subject" "body"
              "ops@example.org" "mail.example.org" "dircap" "secret" 2525
              {| msg_from := "dircap"; msg_to := "ops@example.org";
                 msg_subject := "subject"; msg_body := "body" |})
    as (_ & Hplain);
    try reflexivity; try (left; reflexivity).
  destruct (Hplain eq_refl) as (_ & _ & _ & Hhd & Hno).
  split; [exact Hhd | exact Hno].
Defined.

(** ** Loading the report *)

Lemma load_json_total (w : World) (path : string) :
  exists payload, _load_json w path = Ok payload.
Proof.
  unfold _load_json, try_except.
  destruct (read_text w path) as [contents|e]; simpl; [|now exists JNull].
  destruct (json_loads w contents) as [v|e]; [now exists v | now exists JNull].
Qed.

Lemma load_json_failure (w : World) (path : string) :
  (exists e, read_text w path = Raise e)
  \/ (exists contents e,
        read_text w path = Ok contents /\ json_loads w contents = Raise e) ->
  _load_json w path = Ok JNull.
Proof.
  unfold _load_json, try_except.
  intros [[e H]|(contents & e & H & Hp)]; rewrite H; simpl;
    [reflexivity | now rewrite Hp].
Qed.

Lemma join_cons (sep x y : string) (rest : list string) :
  Str.join sep (x :: y :: rest) = x ++ sep ++ Str.join sep (y :: rest).
Proof.
  reflexivity.
Qed.

Lemma join_contains (sep line : string) (lines : list string) :
  In line lines -> contains (Str.join sep lines) line.
Proof.
  unfold contains. induction lines as [|x rest IH]; intros Hin; [easy |].
  destruct Hin as [->|Hin].
  - destruct rest as [|y rest].
    + exists "", "". simpl. now rewrite append_empty_r.
    + exists "", (sep ++ Str.join sep (y :: rest)). now rewrite join_cons.
  - destruct rest as [|y rest]; [easy |].
    destruct (IH Hin) as (before & after & E).
    exists (x ++ sep ++ before), after.
    rewrite join_cons, E, !append_assoc. reflexivity.
Qed.

Lemma build_message_absent (t : datetime) (log_txt log_json : string) :
  _build_message t {| ok := 0; warn := 0; over := 0 |} [] [] log_txt log_json
  = ("dircap alert: OVER=0 WARN=0", fallback_body (strftime t) log_txt log_json).
Proof.
  reflexivity.
Qed.

(** C6. Loading the report never raises: a failure to read or to parse
    the file gives the absent report [None], and so does a path that does
    not exist; for the absent report the summarizer yields (0,0,0) with no
    warnings and no results, and the body built from that holds the line
    "Affected folders: (could not parse details from JSON)" where the rows
    would stand.  The entry point then mails exactly that message. *)
Theorem load_failure_degrades :
  (forall w path, exists payload, _load_json w path = Ok payload)
  /\ (forall w path,
        path_exists w path = Ok false
        \/ (path_exists w path = Ok true
            /\ ((exists e, read_text w path = Raise e)
                \/ (exists contents e,
                      read_text w path = Ok contents
                      /\ json_loads w contents = Raise e))) ->
        loaded_report w path = Ok JNull)
  /\ _summarize JNull = Ok ({| ok := 0; warn := 0; over := 0 |}, [], [])
  /\ (forall t log_txt log_json,
        _build_message t {| ok := 0; warn := 0; over := 0 |} [] [] log_txt log_json
          = ("dircap alert: OVER=0 WARN=0",
             fallback_body (strftime t) log_txt log_json)
        /\ contains (fallback_body (strftime t) log_txt log_json)
             "Affected folders: (could not parse details from JSON)")
  /\ (forall w prog log_txt log_json,
        loaded_report w (Path.str log_json) = Ok JNull ->
        main w [prog; log_txt; log_json] =
          _send_email w "dircap alert: OVER=0 WARN=0"
            (fallback_body (strftime (now w)) (Path.str log_txt)
                           (Path.str log_json))).
Proof.
  split; [exact load_json_total |]. split; [|split; [reflexivity |split]].
  - intros w path [H|[H Hfail]]; unfold loaded_report; rewrite H; cbn [rbind].
    + reflexivity.
    + now apply load_json_failure.
  - intros t log_txt log_json. split; [apply build_message_absent |].
    unfold fallback_body. apply join_contains. simpl. auto 10.
  - intros w prog log_txt log_json H. rewrite main_steps.
    rewrite H, io_bind_lift_ok.
    change (_summarize JNull)
      with (@Ok (Summary * list string * list dict)
              ({| ok := 0; warn := 0; over := 0 |}, [], [])).
    rewrite io_bind_lift_ok. rewrite build_message_absent. reflexivity.
Qed.

Lemma load_failure_degrades_witness :
  loaded_report quiet_world "dircap-last.json" = Ok JNull
  /\ loaded_report corrupt_report_world "dircap-last.json" = Ok JNull
  /\ main corrupt_report_world sample_argv =
       _send_email corrupt_report_world "dircap alert: OVER=0 WARN=0"
         (fallback_body "2024-03-09 07:05:00" "dircap-last.txt" "dircap-last.json").
Proof.
  destruct load_failure_degrades as (_ & Hload & _ & _ & Hmain).
  split; [|split].
  - apply (Hload quiet_world). left. reflexivity.
  - apply (Hload corrupt_report_world). right. split; [reflexivity |].
    right. exists "", ValueError. split; reflexivity.
  - apply (Hmain corrupt_report_world "send-email.py" "dircap-last.txt"
             "dircap-last.json").
    reflexivity.
Defined.

(** ** Rows *)

Lemma isinstance_int_present (r : dict) (key : string) :
  isinstance_int (get r key JNull) = true <-> present_int_or_bool r key.
Proof.
  unfold get, present_int_or_bool.
  destruct (dict_get r key) as [v|]; simpl.
  - destruct v; simpl; split; intros H; try discriminate; try reflexivity;
      try (destruct H as [[x H]|[x H]]; discriminate H).
    + right. now eexists.
    + left. now eexists.
  - split; [discriminate |]. intros [[x H]|[x H]]; discriminate H.
Qed.

Lemma part_not_empty (s : string) : String.eqb (s ++ "B") "" = false.
Proof.
  destruct s; reflexivity.
Qed.

(** A row is its base, followed by the bytes suffix when both byte fields
    pass [isinstance(_, int)]. *)
Lemma fmt_row_split (r : dict) :
  _fmt_row r =
    row_base r
      ++ (if isinstance_int (get r "used_bytes" JNull)
             && isinstance_int (get r "limit_bytes" JNull)
          then bytes_suffix (py_str (get r "used_bytes" JNull))
                            (py_str (get r "limit_bytes" JNull))
          else "").
Proof.
  unfold _fmt_row, row_base, bytes_suffix. cbv zeta.
  rewrite !append_assoc. do 8 f_equal.
  destruct (isinstance_int (get r "used_bytes" JNull));
    destruct (isinstance_int (get r "limit_bytes" JNull));
    rewrite ?part_not_empty; simpl; try reflexivity.
  now rewrite !append_assoc.
Qed.

(** C8, amended.  The sample record renders as the line of the
    specification, and a row carries the "(usedB/limitB)" suffix exactly
    when used_bytes and limit_bytes are both present and each is an
    integer or a boolean; the suffix then shows their text, and the row
    is its base alone otherwise. *)
Theorem fmt_row_bytes_suffix :
  _fmt_row logs_record = "- WARN   91%  logs  |  /var/logs (910B/1000B)"
  /\ (forall r,
        (exists used limit, _fmt_row r = row_base r ++ bytes_suffix used limit)
        <-> present_int_or_bool r "used_bytes"
            /\ present_int_or_bool r "limit_bytes")
  /\ (forall r,
        present_int_or_bool r "used_bytes"
        /\ present_int_or_bool r "limit_bytes" ->
        _fmt_row r =
          row_base r
            ++ bytes_suffix (py_str (get r "used_bytes" JNull))
                            (py_str (get r "limit_bytes" JNull)))
  /\ (forall r,
        ~ (present_int_or_bool r "used_bytes"
           /\ present_int_or_bool r "limit_bytes") ->
        _fmt_row r = row_base r).
Proof.
  assert (Hyes : forall r,
            present_int_or_bool r "used_bytes"
            /\ present_int_or_bool r "limit_bytes" ->
            _fmt_row r =
              row_base r
                ++ bytes_suffix (py_str (get r "used_bytes" JNull))
                                (py_str (get r "limit_bytes" JNull))).
  { intros r [Hu Hl]. apply isinstance_int_present in Hu, Hl.
    now rewrite fmt_row_split, Hu, Hl. }
  assert (Hno : forall r,
            ~ (present_int_or_bool r "used_bytes"
               /\ present_int_or_bool r "limit_bytes") ->
            _fmt_row r = row_base r).
  { intros r Hn. rewrite fmt_row_split.
    destruct (isinstance_int (get r "used_bytes" JNull)) eqn:Hu;
      destruct (isinstance_int (get r "limit_bytes" JNull)) eqn:Hl;
      cbn [andb]; try apply append_empty_r.
    exfalso. apply Hn. split; now apply isinstance_int_present. }
  split; [reflexivity |]. split; [|split; [exact Hyes | exact Hno]].
  intros r. split.
  - intros (used & limit & E).
    destruct (isinstance_int (get r "used_bytes" JNull)) eqn:Hu;
      destruct (isinstance_int (get r "limit_bytes" JNull)) eqn:Hl;
      try (split; now apply isinstance_int_present);
      exfalso; rewrite fmt_row_split, Hu, Hl in E; cbn [andb] in E;
      apply append_inv_head in E; discriminate E.
  - intros H. eexists _, _. now apply Hyes.
Qed.

(** C8 as stated fails: with the booleans [true] and [false] in the two
    byte fields, neither of them an integer of the document, the row
    still carries the suffix. *)
Lemma fmt_row_boolean_bytes :
  _fmt_row flagged_record = "- WARN   91%  logs  |  /var/logs (TrueB/FalseB)"
  /\ _fmt_row flagged_record
       = row_base flagged_record ++ bytes_suffix "True" "False"
  /\ ~ present_integer flagged_record "used_bytes"
  /\ ~ present_integer flagged_record "limit_bytes".
Proof.
  split; [reflexivity |]. split; [reflexivity |].
  split; intros [n H]; discriminate H.
Qed.

(** ** The message *)

Lemma join_around (sep a b c label ts e : string) (tail : list string) :
  Str.join sep (a :: b :: c :: (label ++ ts) :: e :: tail)
  = (a ++ sep ++ b ++ sep ++ c ++ sep ++ label)
      ++ ts ++ (sep ++ Str.join sep (e :: tail)).
Proof.
  rewrite 4 join_cons, !append_assoc. reflexivity.
Qed.

(** The body is the same text around the timestamp, whatever the clock. *)
Lemma build_message_body_shape (summary : Summary) (warnings : list string)
    (results : list dict) (log_txt log_json : string) :
  exists before after,
    forall t,
      snd (_build_message t summary warnings results log_txt log_json)
      = before ++ strftime t ++ after.
Proof.
  unfold _build_message. cbv zeta.
  set (affected := filter _ results).
  destruct (negb (Nat.eqb (List.length affected) 0));
    destruct (negb (Nat.eqb (List.length warnings) 0));
    eexists _, _; intros t; cbn [snd];
    rewrite <- ?app_assoc; apply join_around.
Qed.

Lemma build_message_subject (t : datetime) (summary : Summary)
    (warnings : list string) (results : list dict) (log_txt log_json : string) :
  fst (_build_message t summary warnings results log_txt log_json)
  = "dircap alert: OVER=" ++ Str.of_Z (over summary)
      ++ " WARN=" ++ Str.of_Z (warn summary).
Proof.
  reflexivity.
Qed.

(** C2, amended.  The subject is a function of the summary alone, and the
    body is a function of the builder's arguments and of the timestamp it
    takes from the clock: two invocations with the same arguments give the
    same message when their timestamps agree, and bodies that differ when
    their timestamps differ. *)
Theorem build_message_deterministic_up_to_clock
    (t1 t2 : datetime) (summary : Summary) (warnings : list string)
    (results : list dict) (log_txt log_json : string) :
  fst (_build_message t1 summary warnings results log_txt log_json)
    = fst (_build_message t2 summary warnings results log_txt log_json)
  /\ (strftime t1 = strftime t2 ->
      _build_message t1 summary warnings results log_txt log_json
        = _build_message t2 summary warnings results log_txt log_json)
  /\ (strftime t1 <> strftime t2 ->
      snd (_build_message t1 summary warnings results log_txt log_json)
        <> snd (_build_message t2 summary warnings results log_txt log_json)).
Proof.
  destruct (build_message_body_shape summary warnings results log_txt log_json)
    as (before & after & Hbody).
  split; [reflexivity |]. split.
  - intros Ht.
    rewrite (surjective_pairing (_build_message t1 _ _ _ _ _)).
    rewrite (surjective_pairing (_build_message t2 _ _ _ _ _)).
    rewrite !Hbody, !build_message_subject, Ht. reflexivity.
  - intros Ht E. apply Ht. rewrite !Hbody in E.
    apply append_inv_head in E. now apply append_inv_tail in E.
Qed.

(** C2 as stated fails: the same arguments, built one second apart, give
    two different bodies. *)
Lemma build_message_clock_dependent :
  _build_message morning {| ok := 0; warn := 0; over := 0 |} []%list []%list
                 "dircap-last.txt" "dircap-last.json"
    = ("dircap alert: OVER=0 WARN=0",
       fallback_body "2024-03-09 07:05:00" "dircap-last.txt" "dircap-last.json")
  /\ _build_message a_second_later {| ok := 0; warn := 0; over := 0 |}
                    []%list []%list "dircap-last.txt" "dircap-last.json"
       = ("dircap alert: OVER=0 WARN=0",
          fallback_body "2024-03-09 07:05:01" "dircap-last.txt" "dircap-last.json")
  /\ fallback_body "2024-03-09 07:05:00" "dircap-last.txt" "dircap-last.json"
       <> fallback_body "2024-03-09 07:05:01" "dircap-last.txt" "dircap-last.json".
Proof.
  split; [reflexivity |]. split; [reflexivity |].
  intros E. vm_compute in E. discriminate E.
Qed.

(** ** The entry point and the mailer *)

(** Whenever the summarizer returns, the entry point builds the message
    and ends as the mailer ends, whatever the summary. *)
Lemma main_sends_when_summarized (w : World) (prog log_txt log_json : string)
    (payload : json) (summary : Summary) (warnings : list string)
    (results : list dict) :
  loaded_report w (Path.str log_json) = Ok payload ->
  _summarize payload = Ok (summary, warnings, results) ->
  main w [prog; log_txt; log_json] =
    _send_email w
      (fst (_build_message (now w) summary warnings results
                           (Path.str log_txt) (Path.str log_json)))
      (snd (_build_message (now w) summary warnings results
                           (Path.str log_txt) (Path.str log_json)))
  /\ exit_status w [prog; log_txt; log_json] =
       match snd (_send_email w
                    (fst (_build_message (now w) summary warnings results
                                         (Path.str log_txt) (Path.str log_json)))
                    (snd (_build_message (now w) summary warnings results
                                         (Path.str log_txt) (Path.str log_json))))
       with
       | Ok code => code
       | Raise _ => 1
       end.
Proof.
  intros Hload Hsum.
  assert (E : main w [prog; log_txt; log_json] =
    _send_email w
      (fst (_build_message (now w) summary warnings results
                           (Path.str log_txt) (Path.str log_json)))
      (snd (_build_message (now w) summary warnings results
                           (Path.str log_txt) (Path.str log_json)))).
  { rewrite main_steps, Hload, io_bind_lift_ok, Hsum, io_bind_lift_ok.
    destruct (_build_message _ _ _ _ _ _) as [subject body]. reflexivity. }
  split; [exact E |]. unfold exit_status. now rewrite E.
Qed.

(** C10 fails on a report whose tally cannot be coerced: in a world where
    the mailer, had it been called, would have sent the message and
    returned 0, the entry point performs no action at all and ends with
    an uncaught [ValueError], exit status 1. *)
Lemma main_skips_send_on_bad_tally :
  loaded_report bad_tally_world (Path.str "dircap-last.json")
    = Ok (bad_tally_report "ok")
  /\ main bad_tally_world sample_argv = ([]%list, Raise ValueError)
  /\ exit_status bad_tally_world sample_argv = 1
  /\ (forall subject body,
        _send_email bad_tally_world subject body =
          ([ Smtp (ConnectSSL "mail.example.org" 465 30);
             Smtp (Login "dircap" "secret");
             Smtp (SendMessage
                     {| msg_from := "dircap"; msg_to := "ops@example.org";
                        msg_subject := subject; msg_body := body |});
             Smtp Quit;
             Stdout "Email sent to ops@example.org" ]%list,
           Ok 0)).
Proof.
  repeat split.
Qed.

Lemma main_sends_when_summarized_witness :
  main quiet_world sample_argv =
    _send_email quiet_world "dircap alert: OVER=0 WARN=0"
      (fallback_body "2024-03-09 07:05:00" "dircap-last.txt" "dircap-last.json")
  /\ exit_status quiet_world sample_argv = 0.
Proof.
  apply (main_sends_when_summarized quiet_world "send-email.py"
           "dircap-last.txt" "dircap-last.json" JNull
           {| ok := 0; warn := 0; over := 0 |} []%list []%list);
    reflexivity.
Defined.

(** * Further properties *)

(** ** Stripping *)

Lemma lstrip_head (s : string) :
  match Str.lstrip s with
  | String c _ => Str.isspace c = false
  | EmptyString => True
  end.
Proof.
  induction s as [|c s IH]; simpl; [exact I |].
  destruct (Str.isspace c) eqn:E; [exact IH | exact E].
Qed.

Lemma rstrip_idempotent (s : string) : Str.rstrip (Str.rstrip s) = Str.rstrip s.
Proof.
  induction s as [|c s IH]; simpl; [reflexivity |].
  destruct (Str.rstrip s) as [|d r] eqn:E.
  - destruct (Str.isspace c) eqn:Ec; simpl; [reflexivity | now rewrite Ec].
  - change (Str.rstrip (String c (String d r)))
      with (match Str.rstrip (String d r) with
            | EmptyString =>
                if Str.isspace c then EmptyString else String c EmptyString
            | r' => String c r'
            end).
    now rewrite IH.
Qed.

Lemma rstrip_head (c : ascii) (s : string) :
  Str.isspace c = false -> exists r, Str.rstrip (String c s) = String c r.
Proof.
  intros Hc. simpl. destruct (Str.rstrip s) as [|d r].
  - rewrite Hc. now exists "".
  - now exists (String d r).
Qed.

Lemma strip_idempotent (s : string) : Str.strip (Str.strip s) = Str.strip s.
Proof.
  unfold Str.strip.
  pose proof (lstrip_head s) as Hh.
  destruct (Str.lstrip s) as [|c u]; [reflexivity |].
  destruct (rstrip_head c u Hh) as [r Hr].
  assert (El : Str.lstrip (Str.rstrip (String c u)) = Str.rstrip (String c u)).
  { rewrite Hr. simpl. now rewrite Hh. }
  rewrite El. apply rstrip_idempotent.
Qed.

(** ** Configuration *)

(** What [_env] returns is the default, or the value of the variable with
    the blanks around it removed, which is then not empty and has no blank
    left at either end. *)
Theorem env_value_trimmed (w : World) (name : string) (default : option string) :
  (missing w name /\ _env w name default = default)
  \/ (exists raw,
        getenv w name = Some raw
        /\ _env w name default = Some (Str.strip raw)
        /\ Str.strip raw <> ""
        /\ Str.strip (Str.strip raw) = Str.strip raw).
Proof.
  unfold missing, _env. destruct (getenv w name) as [raw|].
  - destruct (String.eqb_spec (Str.strip raw) "") as [E|E]; simpl.
    + left. split; [right; now exists raw | reflexivity].
    + right. exists raw. repeat split; try assumption.
      apply strip_idempotent.
  - left. split; [now left | reflexivity].
Qed.

(** [_env_bool] is true exactly when the variable is missing and the
    default is true, or the variable holds, blanks and case apart, one of
    the five tokens; any other value makes it false whatever the default. *)
Theorem env_bool_true_iff (w : World) (name : string) (default : bool) :
  _env_bool w name default = true
  <-> (missing w name /\ default = true)
      \/ (exists raw,
            getenv w name = Some raw
            /\ Str.strip raw <> ""
            /\ In (Str.lower (Str.strip raw)) truthy_tokens).
Proof.
  assert (Hmem : forall s, Str.mem s truthy_tokens = true <-> In s truthy_tokens).
  { intros s. unfold Str.mem. rewrite existsb_exists. split.
    - intros (x & Hx & Hs). apply String.eqb_eq in Hs. now subst.
    - intros Hs. exists s. split; [exact Hs | apply String.eqb_refl]. }
  unfold _env_bool, _env, missing.
  change ["1"; "true"; "yes"; "y"; "on"] with truthy_tokens.
  destruct (getenv w name) as [raw|].
  - destruct (String.eqb_spec (Str.strip raw) "") as [E|E]; cbn [negb].
    + split.
      * intros ->. left. split; [right; now exists raw | reflexivity].
      * intros [[_ H]|(raw' & Hraw & Hne & _)]; [exact H |].
        injection Hraw as <-. contradiction.
    + rewrite Hmem. split.
      * intros H. right. now exists raw.
      * intros [[[Hm|(v & Hv & Hs)] _]|(raw' & Hraw & _ & H)].
        -- discriminate Hm.
        -- injection Hv as <-. contradiction.
        -- now injection Hraw as <-.
  - split.
    + intros ->. left. split; [now left | reflexivity].
    + intros [[_ H]|(raw & Hraw & _)]; [exact H | discriminate Hraw].
Qed.

(** ** Loading *)

(** The loader returns [None] exactly when reading or parsing failed or
    the document is the JSON value null: the caller cannot tell a corrupt
    file from a file that holds null. *)
Theorem load_json_none_iff (w : World) (path : string) :
  _load_json w path = Ok JNull
  <-> (exists e, read_text w path = Raise e)
      \/ (exists contents,
            read_text w path = Ok contents
            /\ ((exists e, json_loads w contents = Raise e)
                \/ json_loads w contents = Ok JNull)).
Proof.
  unfold _load_json, try_except.
  destruct (read_text w path) as [contents|e]; simpl.
  - destruct (json_loads w contents) as [v|e] eqn:E; split.
    + intros H. right. exists contents. split; [reflexivity |]. right.
      now rewrite E, H.
    + intros [[e H]|(c & Hc & [[e H]|H])]; try discriminate;
        injection Hc as <-; rewrite E in H; first [discriminate H | exact H].
    + intros _. right. exists contents. split; [reflexivity |]. left.
      now exists e.
    + reflexivity.
  - split; [intros _; left; now exists e | reflexivity].
Qed.

(** ** The summarizer, further *)

Lemma tally_read_without_tally (payload : json) :
  has_tally payload = false ->
  tally_read payload = Ok {| ok := 0; warn := 0; over := 0 |}.
Proof.
  unfold has_tally, tally_read.
  destruct payload as [| | | | |items|fields]; try reflexivity.
  destruct (dict_get fields "summary") as [[| | | | | |s]|];
    try reflexivity; discriminate.
Qed.

Lemma py_int_raises (v : json) (e : exn) :
  py_int v = Raise e -> e = ValueError \/ e = TypeError \/ e = OverflowError.
Proof.
  destruct v as [|b|n|f|s|items|fields]; simpl; intros H;
    try discriminate; try (injection H as <-; auto).
  - destruct f; simpl in H; try discriminate; injection H as <-; auto.
  - destruct (Str.to_Z s); [discriminate | injection H as <-; auto].
Qed.

Lemma tally_read_raises (payload : json) (e : exn) :
  tally_read payload = Raise e ->
  has_tally payload = true
  /\ (e = ValueError \/ e = TypeError \/ e = OverflowError).
Proof.
  unfold tally_read, has_tally.
  destruct payload as [| | | | |items|fields]; try discriminate.
  destruct (dict_get fields "summary") as [[| | | | | |s]|]; try discriminate.
  intros H. split; [reflexivity |].
  destruct (py_int (py_or (get s "ok" (JInt 0)) (JInt 0))) eqn:E1; simpl in H;
    [|injection H as <-; now apply (py_int_raises _ _ E1)].
  destruct (py_int (py_or (get s "warn" (JInt 0)) (JInt 0))) eqn:E2; simpl in H;
    [|injection H as <-; now apply (py_int_raises _ _ E2)].
  destruct (py_int (py_or (get s "over" (JInt 0)) (JInt 0))) eqn:E3; simpl in H;
    [discriminate | injection H as <-; now apply (py_int_raises _ _ E3)].
Qed.

(** What a returned triple is made of. *)
Lemma summarize_ok_inv (payload : json) (s : Summary) (ws : list string)
    (rs : list dict) :
  _summarize payload = Ok (s, ws, rs) ->
  exists t,
    tally_read payload = Ok t
    /\ ws = warnings_read payload
    /\ rs = records_read payload
    /\ s = (if all_zero t && negb (Nat.eqb (List.length rs) 0)
            then {| ok := records_with_status "OK" rs;
                    warn := records_with_status "WARN" rs;
                    over := records_with_status "OVER" rs |}
            else t).
Proof.
  intros H. destruct (tally_read payload) as [t|e] eqn:E.
  - rewrite (summarize_returns payload t E) in H. injection H as <- <- <-.
    exists t. repeat split.
  - rewrite (summarize_raises payload e E) in H. discriminate.
Qed.

(** The summarizer raises only on a report that carries a tally
    sub-object, and then a ValueError, TypeError or OverflowError of the
    integer coercion; on every other value (a flat list, an object without
    a tally, null, a string, a number) it returns, with the counts of the
    records when there are records and the zero tally otherwise. *)
Theorem summarize_raises_only_on_tally :
  (forall payload,
     has_tally payload = false ->
     _summarize payload =
       Ok (if negb (Nat.eqb (List.length (records_read payload)) 0)
           then {| ok := records_with_status "OK" (records_read payload);
                   warn := records_with_status "WARN" (records_read payload);
                   over := records_with_status "OVER" (records_read payload) |}
           else {| ok := 0; warn := 0; over := 0 |},
           warnings_read payload, records_read payload))
  /\ (forall payload e,
        _summarize payload = Raise e ->
        has_tally payload = true
        /\ (e = ValueError \/ e = TypeError \/ e = OverflowError)).
Proof.
  split.
  - intros payload H.
    now rewrite (summarize_returns payload _ (tally_read_without_tally payload H)).
  - intros payload e H. destruct (tally_read payload) as [t|e'] eqn:E.
    + rewrite (summarize_returns payload t E) in H. discriminate.
    + rewrite (summarize_raises payload e' E) in H. injection H as <-.
      now apply tally_read_raises.
Qed.







Lemma known_status_counts (results : list dict) :
  records_with_status "OK" results + records_with_status "WARN" results
    + records_with_status "OVER" results
  = Z.of_nat (List.length (filter known_status results)).
Proof.
  unfold records_with_status.
  induction results as [|r rs IH]; [reflexivity |].
  assert (Hr : (status_equals "OK" r = true /\ status_equals "WARN" r = false
                /\ status_equals "OVER" r = false)
               \/ (status_equals "OK" r = false /\ status_equals "WARN" r = true
                   /\ status_equals "OVER" r = false)
               \/ (status_equals "OK" r = false /\ status_equals "WARN" r = false
                   /\ status_equals "OVER" r = true)
               \/ (status_equals "OK" r = false /\ status_equals "WARN" r = false
                   /\ status_equals "OVER" r = false)).
  { unfold status_equals. destruct (dict_get r "status") as [[| | | |s| |]|];
      auto 10.
    destruct (String.eqb_spec s "OK") as [->|H1]; [auto 10 |].
    destruct (String.eqb_spec s "WARN") as [->|H2]; [auto 10 |].
    destruct (String.eqb_spec s "OVER") as [->|H3]; auto 10. }
  assert (Hk : known_status r
               = status_equals "OK" r || status_equals "WARN" r
                 || status_equals "OVER" r) by reflexivity.
  cbn [filter]. rewrite Hk.
  destruct Hr as [(-> & -> & ->)|[(-> & -> & ->)|[(-> & -> & ->)|(-> & -> & ->)]]];
    cbn [orb List.length]; lia.
Qed.

Lemma filter_length_all {A : Type} (f : A -> bool) (l : list A) :
  List.length (filter f l) = List.length l <-> forallb f l = true.
Proof.
  induction l as [|x l IH]; simpl; [easy |].
  pose proof (filter_length_le f l) as Hle.
  destruct (f x); simpl.
  - rewrite <- IH. lia.
  - split; [lia | discriminate].
Qed.

(** When the tally is counted from the records, the three counters add up
    to the number of records whose status is one of the three labels: a
    record with any other status, or none, is counted nowhere, so the sum
    is at most the number of records and reaches it exactly when every
    record has a known status. *)
Theorem counted_tally_bounded (payload : json) (s : Summary)
    (ws : list string) (rs : list dict) :
  _summarize payload = Ok (s, ws, rs) ->
  has_tally payload = false ->
  ok s + warn s + over s = Z.of_nat (List.length (filter known_status rs))
  /\ ok s + warn s + over s <= Z.of_nat (List.length rs)
  /\ (ok s + warn s + over s = Z.of_nat (List.length rs)
      <-> forallb known_status rs = true).
Proof.
  intros H Ht.
  destruct (summarize_ok_inv payload s ws rs H) as (t & Hread & _ & _ & Hs).
  rewrite (tally_read_without_tally payload Ht) in Hread. injection Hread as <-.
  assert (E : ok s + warn s + over s
              = Z.of_nat (List.length (filter known_status rs))).
  { rewrite Hs. destruct rs as [|r rs']; [reflexivity |].
    cbn [all_zero ok warn over Z.eqb andb List.length Nat.eqb negb].
    apply known_status_counts. }
  pose proof (filter_length_le known_status rs) as Hle.
  split; [exact E |]. split; [lia |].
  rewrite E, <- filter_length_all. lia.
Qed.

Lemma counted_tally_bounded_witness :
  1 + 1 + 2 = Z.of_nat (List.length (filter known_status (records_read flat_report)))
  /\ 1 + 1 + 2 <= Z.of_nat (List.length (records_read flat_report))
  /\ (1 + 1 + 2 = Z.of_nat (List.length (records_read flat_report))
      <-> forallb known_status (records_read flat_report) = true).
Proof.
  apply (counted_tally_bounded flat_report {| ok := 1; warn := 1; over := 2 |} []);
    reflexivity.
Defined.

(** ** Rows and the message, further *)

Lemma replicate_length (n : nat) (c : ascii) :
  String.length (Str.replicate n c) = n.
Proof.
  induction n as [|n IH]; simpl; [reflexivity | now rewrite IH].
Qed.

Lemma replicate_app (n m : nat) (c : ascii) :
  Str.replicate n c ++ Str.replicate m c = Str.replicate (n + m) c.
Proof.
  induction n as [|n IH]; simpl; [reflexivity | now rewrite IH].
Qed.

Lemma get_after (lead : string) (c : ascii) (rest : string) :
  String.get (String.length lead) (lead ++ String c rest) = Some c.
Proof.
  induction lead as [|x lead IH]; simpl; [reflexivity | exact IH].
Qed.

(** Column layout of a row: when the status and the percentage have at
    most four characters each, the status starts at column 2, the
    percentage ends at column 10 and the percent sign stands at column 11,
    whatever the record; the name follows two blanks later. *)
Theorem fmt_row_columns (r : dict) :
  (String.length (py_str (get r "status" (JStr ""))) <= 4)%nat ->
  (String.length (py_str (get r "pct_used" (JStr ""))) <= 4)%nat ->
  exists lead rest,
    _fmt_row r = lead ++ String "%" rest
    /\ String.length lead = 11%nat
    /\ lead = "- " ++ py_str (get r "status" (JStr ""))
                ++ Str.replicate
                     (9 - String.length (py_str (get r "status" (JStr "")))
                        - String.length (py_str (get r "pct_used" (JStr ""))))
                     " "
                ++ py_str (get r "pct_used" (JStr ""))
    /\ String.get 11 (_fmt_row r) = Some "%"%char
    /\ exists extra,
         rest = "  " ++ py_str (get r "name" (JStr "")) ++ "  |  "
                  ++ py_str (get r "path" (JStr "")) ++ extra.
Proof.
  intros Hs Hp. rewrite fmt_row_split. unfold row_base, Str.ljust, Str.rjust.
  set (status := py_str (get r "status" (JStr ""))) in *.
  set (pct := py_str (get r "pct_used" (JStr ""))) in *.
  set (extra := if isinstance_int (get r "used_bytes" JNull)
                   && isinstance_int (get r "limit_bytes" JNull)
                then bytes_suffix (py_str (get r "used_bytes" JNull))
                                  (py_str (get r "limit_bytes" JNull))
                else "").
  set (lead := "- " ++ status
                 ++ Str.replicate (9 - String.length status - String.length pct) " "
                 ++ pct).
  assert (Hlen : String.length lead = 11%nat).
  { unfold lead. rewrite !append_length, replicate_length.
    cbn [String.length]. lia. }
  assert (E : ("- " ++ (status ++ Str.replicate (4 - String.length status) " ")
                 ++ " " ++ (Str.replicate (4 - String.length pct) " " ++ pct)
                 ++ "%  " ++ py_str (get r "name" (JStr "")) ++ "  |  "
                 ++ py_str (get r "path" (JStr ""))) ++ extra
              = lead ++ String "%" ("  " ++ py_str (get r "name" (JStr ""))
                                      ++ "  |  "
                                      ++ py_str (get r "path" (JStr ""))
                                      ++ extra)).
  { unfold lead.
    replace (9 - String.length status - String.length pct)%nat
      with ((4 - String.length status) + (1 + (4 - String.length pct)))%nat
      by lia.
    rewrite <- replicate_app. change (Str.replicate (1 + ?n) " ")
      with (" " ++ Str.replicate n " ").
    rewrite !append_assoc. reflexivity. }
  exists lead, ("  " ++ py_str (get r "name" (JStr "")) ++ "  |  "
                  ++ py_str (get r "path" (JStr "")) ++ extra).
  split; [exact E |]. split; [exact Hlen |]. split; [reflexivity |].
  split; [|now exists extra].
  rewrite E, <- Hlen. apply get_after.
Qed.

Lemma fmt_row_columns_witness :
  exists lead rest,
    _fmt_row logs_record = lead ++ String "%" rest
    /\ String.length lead = 11%nat
    /\ lead = "- " ++ py_str (get logs_record "status" (JStr ""))
                ++ Str.replicate
                     (9 - String.length (py_str (get logs_record "status" (JStr "")))
                        - String.length (py_str (get logs_record "pct_used" (JStr ""))))
                     " "
                ++ py_str (get logs_record "pct_used" (JStr ""))
    /\ String.get 11 (_fmt_row logs_record) = Some "%"%char
    /\ exists extra,
         rest = "  " ++ py_str (get logs_record "name" (JStr "")) ++ "  |  "
                  ++ py_str (get logs_record "path" (JStr "")) ++ extra.
Proof.
  apply (fmt_row_columns logs_record); simpl; lia.
Defined.

Lemma affected_test_spec (r : dict) :
  Str.mem (py_str (get r "status" JNull)) ["WARN"; "OVER"]
  = status_equals "WARN" r || status_equals "OVER" r.
Proof.
  unfold Str.mem. cbn [existsb].
  rewrite !status_test_spec by (unfold labels; simpl; auto).
  now rewrite orb_false_r.
Qed.

(** The body, section by section. *)
Lemma build_message_lines (t : datetime) (summary : Summary)
    (warnings : list string) (results : list dict) (log_txt log_json : string) :
  snd (_build_message t summary warnings results log_txt log_json)
  = Str.join nl
      (intro_lines t summary
         ++ match affected_rows results with
            | [] => ["Affected folders: (could not parse details from JSON)"; ""]
            | rows => ["Affected folders (WARN/OVER):"] ++ map _fmt_row rows ++ [""]
            end
         ++ warnings_lines warnings
         ++ logs_lines log_txt log_json)%list.
Proof.
  unfold _build_message. cbv zeta. cbn [snd].
  rewrite (filter_ext _ _ affected_test_spec results).
  fold (affected_rows results).
  destruct (affected_rows results) as [|r rows];
    destruct warnings as [|w ws]; cbn [List.length Nat.eqb negb];
    unfold intro_lines, warnings_lines, logs_lines;
    rewrite <- ?app_assoc; reflexivity.
Qed.

Lemma join_app (sep : string) (front back : list string) :
  front <> [] -> back <> [] ->
  Str.join sep (front ++ back) = Str.join sep front ++ sep ++ Str.join sep back.
Proof.
  intros Hf Hb. induction front as [|x front IH]; [contradiction |].
  destruct front as [|y front].
  - destruct back as [|z back]; [contradiction | reflexivity].
  - change ((x :: y :: front) ++ back)%list with (x :: y :: (front ++ back))%list.
    rewrite !join_cons.
    change (y :: (front ++ back))%list with ((y :: front) ++ back)%list.
    rewrite IH by discriminate. now rewrite !append_assoc.
Qed.

(** When some result has the status WARN or OVER, the body lists, under
    the heading "Affected folders (WARN/OVER):", one row for each such
    result and for no other, in the order of the results. *)
Theorem body_lists_affected_rows (t : datetime) (summary : Summary)
    (warnings : list string) (results : list dict) (log_txt log_json : string) :
  affected_rows results <> [] ->
  snd (_build_message t summary warnings results log_txt log_json)
  = Str.join nl
      (intro_lines t summary
         ++ ["Affected folders (WARN/OVER):"]
         ++ map _fmt_row (affected_rows results)
         ++ [""]
         ++ warnings_lines warnings
         ++ logs_lines log_txt log_json)%list.
Proof.
  intros H. rewrite build_message_lines.
  destruct (affected_rows results) as [|r rows]; [contradiction |].
  now rewrite <- !app_assoc.
Qed.

Lemma body_lists_affected_rows_witness :
  snd (_build_message morning {| ok := 1; warn := 1; over := 0 |} []
         [ [("status", JStr "OK")]; logs_record ] "a.txt" "b.json")
  = Str.join nl
      (intro_lines morning {| ok := 1; warn := 1; over := 0 |}
         ++ ["Affected folders (WARN/OVER):"]
         ++ map _fmt_row [logs_record]
         ++ [""]
         ++ warnings_lines []
         ++ logs_lines "a.txt" "b.json")%list.
Proof.
  apply (body_lists_affected_rows morning {| ok := 1; warn := 1; over := 0 |} []
           [ [("status", JStr "OK")]; logs_record ] "a.txt" "b.json").
  discriminate.
Defined.

(** When no result has the status WARN or OVER, the body holds the line
    "Affected folders: (could not parse details from JSON)" in place of
    the rows, also when the report parsed and whatever the summary says. *)
Theorem body_falls_back_without_affected_rows (t : datetime) (summary : Summary)
    (warnings : list string) (results : list dict) (log_txt log_json : string) :
  affected_rows results = [] ->
  snd (_build_message t summary warnings results log_txt log_json)
  = Str.join nl
      (intro_lines t summary
         ++ ["Affected folders: (could not parse details from JSON)"; ""]
         ++ warnings_lines warnings
         ++ logs_lines log_txt log_json)%list
  /\ contains
       (snd (_build_message t summary warnings results log_txt log_json))
       "Affected folders: (could not parse details from JSON)".
Proof.
  intros H. rewrite build_message_lines, H. split; [reflexivity |].
  apply join_contains. apply in_or_app. right. now left.
Qed.

Lemma body_falls_back_without_affected_rows_witness :
  snd (_build_message morning {| ok := 3; warn := 1; over := 0 |} []
         [ [("status", JStr "OK")] ] "a.txt" "b.json")
  = Str.join nl
      (intro_lines morning {| ok := 3; warn := 1; over := 0 |}
         ++ ["Affected folders: (could not parse details from JSON)"; ""]
         ++ warnings_lines []
         ++ logs_lines "a.txt" "b.json")%list
  /\ contains
       (snd (_build_message morning {| ok := 3; warn := 1; over := 0 |} []
               [ [("status", JStr "OK")] ] "a.txt" "b.json"))
       "Affected folders: (could not parse details from JSON)".
Proof.
  apply (body_falls_back_without_affected_rows morning
           {| ok := 3; warn := 1; over := 0 |} []
           [ [("status", JStr "OK")] ] "a.txt" "b.json").
  reflexivity.
Defined.

(** Every body ends with the Logs section: the heading, the two paths as
    they were passed to the builder, a blank line and the tip. *)
Theorem body_ends_with_logs (t : datetime) (summary : Summary)
    (warnings : list string) (results : list dict) (log_txt log_json : string) :
  exists before,
    snd (_build_message t summary warnings results log_txt log_json)
    = before ++ nl ++ "Logs:" ++ nl ++ "- Text: " ++ log_txt ++ nl
        ++ "- JSON: " ++ log_json ++ nl ++ nl
        ++ "Tip: Open the text log for the full Rich table output.".
Proof.
  rewrite build_message_lines.
  set (section := match affected_rows results with
                  | [] => _
                  | _ => _
                  end).
  rewrite (app_assoc section), (app_assoc (intro_lines t summary)).
  exists (Str.join nl (intro_lines t summary ++ section ++ warnings_lines warnings)).
  rewrite join_app; [reflexivity | unfold intro_lines | unfold logs_lines];
    discriminate.
Qed.

(** ** The subject *)

Lemma of_Z_inj (n m : Z) : Str.of_Z n = Str.of_Z m -> n = m.
Proof.
  unfold Str.of_Z. intros H.
  assert (Hn : forall z, Z.to_int z <> Decimal.Pos Decimal.Nil
                         /\ Z.to_int z <> Decimal.Neg Decimal.Nil).
  { intros [|p|p]; simpl; split; try discriminate;
      intros E; injection E as E;
      now apply DecimalPos.Unsigned.to_uint_nonnil in E. }
  apply (f_equal NilZero.int_of_string) in H.
  rewrite !NilZero.isi in H by apply Hn.
  injection H as H. now apply DecimalZ.to_int_inj.
Qed.

Lemma digits_no_blank (d : Decimal.uint) :
  Str.contains_char " " (NilEmpty.string_of_uint d) = false.
Proof.
  induction d; simpl; try reflexivity; exact IHd.
Qed.

Lemma of_Z_no_blank (n : Z) : Str.contains_char " " (Str.of_Z n) = false.
Proof.
  unfold Str.of_Z. destruct n as [|p|p]; simpl; try reflexivity;
    unfold NilZero.string_of_uint;
    destruct (Pos.to_uint p); try reflexivity; apply digits_no_blank.
Qed.

(** Two texts without a blank, each followed by a blank: equal wholes
    have equal parts. *)
Lemma split_at_blank (a a' r r' : string) :
  Str.contains_char " " a = false ->
  Str.contains_char " " a' = false ->
  a ++ String " " r = a' ++ String " " r' ->
  a = a' /\ r = r'.
Proof.
  revert a'. induction a as [|x a IH]; intros [|y a'] Ha Ha' H; simpl in *.
  - injection H as ->. now split.
  - injection H as <- _. discriminate Ha'.
  - injection H as -> _. discriminate Ha.
  - injection H as -> H.
    apply orb_false_iff in Ha as [_ Ha]. apply orb_false_iff in Ha' as [_ Ha'].
    destruct (IH a' Ha Ha' H) as [-> ->]. now split.
Qed.

(** The subject tells the over and warn counts: two messages with the
    same subject were built from summaries with the same over and the
    same warn count. *)
Theorem subject_determines_counts (t t' : datetime) (s s' : Summary)
    (ws ws' : list string) (rs rs' : list dict) (a b a' b' : string) :
  fst (_build_message t s ws rs a b) = fst (_build_message t' s' ws' rs' a' b') ->
  over s = over s' /\ warn s = warn s'.
Proof.
  rewrite !build_message_subject. intros H.
  apply (append_inv_head "dircap alert: OVER=") in H.
  change (" WARN=" ++ ?x) with (String " " ("WARN=" ++ x)) in H.
  apply split_at_blank in H as [Ho Hw]; try apply of_Z_no_blank.
  apply (append_inv_head "WARN=") in Hw.
  split; now apply of_Z_inj.
Qed.

Lemma subject_determines_counts_witness :
  over {| ok := 0; warn := 1; over := 2 |} = over {| ok := 5; warn := 1; over := 2 |}
  /\ warn {| ok := 0; warn := 1; over := 2 |}
     = warn {| ok := 5; warn := 1; over := 2 |}.
Proof.
  apply (subject_determines_counts morning a_second_later
           {| ok := 0; warn := 1; over := 2 |} {| ok := 5; warn := 1; over := 2 |}
           [] ["w"] [] [logs_record] "a" "b" "c" "d").
  reflexivity.
Defined.

(** ** The mailer, further *)

Lemma env_default (w : World) (name : string) (default : option string) :
  missing w name -> _env w name default = default.
Proof.
  unfold missing, _env. intros [H|(v & H & Hv)]; rewrite H; [reflexivity |].
  now rewrite Hv.
Qed.

Lemma send_email_compose_error (w : World) (subject body : string)
    (to server user password : string) (port : Z) (e : exn) :
  _env w "DIRCAP_EMAIL_TO" None = Some to ->
  _env w "DIRCAP_SMTP_SERVER" None = Some server ->
  _env w "DIRCAP_SMTP_USER" None = Some user ->
  _env w "DIRCAP_SMTP_PASS" None = Some password ->
  Str.to_Z (text (_env w "DIRCAP_SMTP_PORT" (Some "465"))) = Some port ->
  compose_error w
    {| msg_from := text (_env w "DIRCAP_EMAIL_FROM" (Some user));
       msg_to := to; msg_subject := subject; msg_body := body |} = Some e ->
  _send_email w subject body = ([], Raise e).
Proof.
  intros Hto Hserver Huser Hpass Hport Hmsg.
  unfold _send_email. cbv zeta.
  rewrite (env_set w _ _ Hto), (env_set w _ _ Hserver),
    (env_set w _ _ Huser), (env_set w _ _ Hpass).
  cbn [orb]. rewrite Hport, Hto, Hserver, Huser, Hpass. cbn [text].
  now rewrite Hmsg.
Qed.

(** Either the mailer made no SMTP call, or its configuration was
    complete and it ran the session its flags select. *)
Lemma send_email_cases (w : World) (subject body : string) :
  (smtp_calls (fst (_send_email w subject body)) = []
   /\ ((exists line, _send_email w subject body = ([Stderr line], Ok 1))
       \/ exists e, _send_email w subject body = ([], Raise e)))
  \/ exists to server user password port msg,
       _env w "DIRCAP_EMAIL_TO" None = Some to
       /\ _env w "DIRCAP_SMTP_SERVER" None = Some server
       /\ _env w "DIRCAP_SMTP_USER" None = Some user
       /\ _env w "DIRCAP_SMTP_PASS" None = Some password
       /\ Str.to_Z (text (_env w "DIRCAP_SMTP_PORT" (Some "465"))) = Some port
       /\ msg = {| msg_from := text (_env w "DIRCAP_EMAIL_FROM" (Some user));
                   msg_to := to; msg_subject := subject; msg_body := body |}
       /\ compose_error w msg = None
       /\ _send_email w subject body =
            conclude to
              (planned_session w
                 (_env_bool w "EMAIL_USE_SSL" (port =? 465))
                 (_env_bool w "EMAIL_USE_TLS" (port =? 587))
                 server port user password msg).
Proof.
  assert (Hmiss : forall name, In name required_settings ->
            _env w name None = None ->
            smtp_calls (fst (_send_email w subject body)) = []
            /\ ((exists line, _send_email w subject body = ([Stderr line], Ok 1))
                \/ exists e, _send_email w subject body = ([], Raise e))).
  { intros name Hin H. rewrite (send_email_missing w subject body name Hin H).
    split; [reflexivity | left; now eexists]. }
  destruct (_env w "DIRCAP_EMAIL_TO" None) as [to|] eqn:Hto;
    [|left; apply (Hmiss "DIRCAP_EMAIL_TO"); [simpl; auto | exact Hto]].
  destruct (_env w "DIRCAP_SMTP_SERVER" None) as [server|] eqn:Hserver;
    [|left; apply (Hmiss "DIRCAP_SMTP_SERVER"); [simpl; auto | exact Hserver]].
  destruct (_env w "DIRCAP_SMTP_USER" None) as [user|] eqn:Huser;
    [|left; apply (Hmiss "DIRCAP_SMTP_USER"); [simpl; auto | exact Huser]].
  destruct (_env w "DIRCAP_SMTP_PASS" None) as [password|] eqn:Hpass;
    [|left; apply (Hmiss "DIRCAP_SMTP_PASS"); [simpl; auto 6 | exact Hpass]].
  destruct (Str.to_Z (text (_env w "DIRCAP_SMTP_PORT" (Some "465"))))
    as [port|] eqn:Hport.
  - destruct (compose_error w
                {| msg_from := text (_env w "DIRCAP_EMAIL_FROM" (Some user));
                   msg_to := to; msg_subject := subject; msg_body := body |})
      as [e|] eqn:Hmsg.
    + left.
      rewrite (send_email_compose_error w subject body to server user password
                 port e Hto Hserver Huser Hpass Hport Hmsg).
      split; [reflexivity | right; now exists e].
    + right. exists to, server, user, password, port. eexists.
      repeat (split; [reflexivity |]). split; [exact Hmsg |].
      now apply send_email_session.
  - left.
    rewrite (send_email_bad_port w subject body to server user password
               Hto Hserver Huser Hpass Hport).
    split; [reflexivity | left; now eexists].
Qed.

(** How a run of the mailer looks from outside. *)
Lemma send_email_result_shape (w : World) (subject body : string) :
  (snd (_send_email w subject body) = Ok 0
   /\ existsb is_stdout (fst (_send_email w subject body)) = true)
  \/ ((snd (_send_email w subject body) = Ok 1
       \/ snd (_send_email w subject body) = Ok 2)
      /\ existsb is_stdout (fst (_send_email w subject body)) = false)
  \/ exists e, _send_email w subject body = ([], Raise e).
Proof.
  destruct (send_email_cases w subject body)
    as [[_ [[line E]|[e E]]]|(to & server & user & password & port & msg & H)].
  - right. left. rewrite E. split; [now left | reflexivity].
  - right. right. now exists e.
  - destruct H as (_ & _ & _ & _ & _ & _ & _ & E). rewrite E.
    destruct (planned_session _ _ _ _ _ _ _ _) as [calls [detail|]];
      unfold conclude; cbn [fst snd]; rewrite existsb_app, no_stdout_in_calls.
    + right. left. split; [now right | reflexivity].
    + left. split; reflexivity.
Qed.

(** The mailer returns 0, 1 or 2; it returns 0 exactly when it printed the
    confirmation, and an exception escapes it only before it did
    anything. *)
Theorem mailer_confirmation_iff_success (w : World) (subject body : string) :
  (forall code,
     snd (_send_email w subject body) = Ok code ->
     code = 0 \/ code = 1 \/ code = 2)
  /\ (snd (_send_email w subject body) = Ok 0
      <-> existsb is_stdout (fst (_send_email w subject body)) = true)
  /\ (forall e,
        snd (_send_email w subject body) = Raise e ->
        fst (_send_email w subject body) = []).
Proof.
  destruct (send_email_result_shape w subject body)
    as [[E Hs]|[[[E|E] Hs]|[e E]]]; rewrite ?E, ?Hs.
  - repeat split; try discriminate; intros code H; injection H as <-; auto.
  - repeat split; try discriminate; intros code H; injection H as <-; auto.
  - repeat split; try discriminate; intros code H; injection H as <-; auto.
  - cbn [fst snd]. repeat split; discriminate.
Qed.

(** The calls [run_ops] made are a prefix of the calls it was given, and
    every call but the last one made was accepted. *)
Lemma run_ops_made server (todo done calls : list smtp_op) raised :
  run_ops server done todo = (calls, raised) ->
  exists made rest,
    todo = (made ++ rest)%list
    /\ calls = (done ++ made)%list
    /\ forall d op r,
         made = (d ++ op :: r)%list -> r <> [] ->
         server (done ++ d)%list op = None.
Proof.
  revert done. induction todo as [|op todo IH]; intros done H; simpl in H.
  - injection H as <- _. exists [], [].
    split; [reflexivity | split; [now rewrite app_nil_r |]]. intros [|x d] op r E; discriminate E.
  - destruct (server done op) as [detail|] eqn:Eop.
    + injection H as <- _. exists [op], todo.
      split; [reflexivity | split; [reflexivity |]]. intros [|x d] op' r E Hr.
      * injection E as _ <-. contradiction.
      * injection E as _ E. destruct d; discriminate E.
    + destruct (IH _ H) as (made & rest & -> & -> & Hacc).
      exists (op :: made), rest. rewrite <- app_assoc.
      split; [reflexivity | split; [reflexivity |]]. intros [|x d] op' r E Hr; injection E as <- E.
      * now rewrite app_nil_r.
      * specialize (Hacc d op' r E Hr). now rewrite <- app_assoc in Hacc.
Qed.

(** The calls of a session: the opening alone when it raised; otherwise
    the opening, a prefix of the body and [QUIT], every call before the
    last one of the prefix having been accepted. *)
Lemma with_session_shape (w : World) open body calls raised :
  with_session w open body = (calls, raised) ->
  (calls = [open] /\ smtp w [] open <> None)
  \/ exists made rest,
       body = (made ++ rest)%list
       /\ calls = (open :: made ++ [Quit])%list
       /\ smtp w [] open = None
       /\ forall d op r,
            made = (d ++ op :: r)%list -> r <> [] ->
            smtp w (open :: d) op = None.
Proof.
  unfold with_session. destruct (smtp w [] open) as [detail|] eqn:Eopen.
  - intros H. injection H as <- _. left. split; [reflexivity | discriminate].
  - destruct (run_ops (smtp w) [open] body) as [done r] eqn:Erun.
    destruct (run_ops_made _ _ _ _ _ Erun) as (made & rest & Hb & -> & Hacc).
    intros H. right. exists made, rest.
    assert (Hc : calls = (open :: made ++ [Quit])%list).
    { destruct (smtp w ([open] ++ made)%list Quit); now injection H as <- _. }
    split; [exact Hb |]. split; [exact Hc |]. split; [reflexivity |].
    exact Hacc.
Qed.

Lemma with_session_after_raise (w : World) open body calls raised :
  with_session w open body = (calls, raised) ->
  forall d op r detail,
    calls = (d ++ op :: r)%list -> smtp w d op = Some detail ->
    r = [] \/ r = [Quit].
Proof.
  intros H d op r detail Hc Hraise.
  destruct (with_session_shape w open body calls raised H)
    as [[-> _]|(made & rest & _ & -> & Hopen & Hacc)].
  - destruct d as [|x d]; injection Hc as _ Hc.
    + left. now subst.
    + destruct d; discriminate Hc.
  - destruct d as [|x d]; injection Hc as Hx Hc.
    + subst op. rewrite Hopen in Hraise. discriminate.
    + subst x. apply app_eq_app in Hc as [l [[-> E]|[-> E]]].
      * destruct l as [|y l]; simpl in E.
        -- injection E as _ ->. now left.
        -- injection E as -> ->. destruct l as [|z l]; [now right |].
           rewrite (Hacc d y (z :: l) eq_refl) in Hraise by discriminate.
           discriminate.
      * destruct l as [|y l]; simpl in E.
        -- injection E as _ <-. now left.
        -- injection E as _ E. destruct l; discriminate E.
Qed.

(** Once a call of the session has raised, the mailer makes no further
    call but the QUIT that leaves the session: no login and no message
    follow a refused connection, handshake, upgrade or login. *)
Theorem no_call_after_failure (w : World) (subject body : string)
    (d : list smtp_op) (op : smtp_op) (r : list smtp_op) (detail : string) :
  smtp_calls (fst (_send_email w subject body)) = (d ++ op :: r)%list ->
  smtp w d op = Some detail ->
  r = [] \/ r = [Quit].
Proof.
  intros Hc Hraise.
  destruct (send_email_cases w subject body)
    as [[E _]|(to & server & user & password & port & msg & H)].
  - rewrite E in Hc. destruct d; discriminate Hc.
  - destruct H as (_ & _ & _ & _ & _ & _ & _ & E).
    rewrite E, smtp_calls_conclude in Hc.
    unfold planned_session in Hc.
    destruct (_env_bool w "EMAIL_USE_SSL" (port =? 465));
      destruct (with_session _ _ _) as [calls raised] eqn:Es;
      now apply (with_session_after_raise _ _ _ _ _ Es d op r detail).
Qed.

Lemma no_call_after_failure_witness :
  [Quit] = [] \/ [Quit] = [Quit].
Proof.
  apply (no_call_after_failure rejecting_world "subject" "body"
           [ConnectSSL "mail.example.org" 465 30] (Login "dircap" "secret")
           [Quit] "(535, b'authentication failed')");
    reflexivity.
Defined.

(** When the implicit-encryption flag is on, the session opens with
    implicit TLS on the configured server and port, and neither EHLO nor
    STARTTLS nor a plain connection is ever issued, whatever the upgrade
    flag says. *)
Theorem implicit_tls_takes_precedence (w : World) (subject body : string)
    (to server user password : string) (port : Z) (msg : message) :
  _env w "DIRCAP_EMAIL_TO" None = Some to ->
  _env w "DIRCAP_SMTP_SERVER" None = Some server ->
  _env w "DIRCAP_SMTP_USER" None = Some user ->
  _env w "DIRCAP_SMTP_PASS" None = Some password ->
  Str.to_Z (text (_env w "DIRCAP_SMTP_PORT" (Some "465"))) = Some port ->
  msg = {| msg_from := text (_env w "DIRCAP_EMAIL_FROM" (Some user));
           msg_to := to; msg_subject := subject; msg_body := body |} ->
  compose_error w msg = None ->
  _env_bool w "EMAIL_USE_SSL" (port =? 465) = true ->
  hd_error (smtp_calls (fst (_send_email w subject body)))
    = Some (ConnectSSL server port 30)
  /\ ~ In StartTLS (smtp_calls (fst (_send_email w subject body)))
  /\ ~ In Ehlo (smtp_calls (fst (_send_email w subject body)))
  /\ forall h p t, ~ In (Connect h p t) (smtp_calls (fst (_send_email w subject body))).
Proof.
  intros Hto Hserver Huser Hpass Hport Hmsg Hcompose Hssl.
  rewrite (send_email_session w subject body to server user password port
             Hto Hserver Huser Hpass Hport msg Hmsg Hcompose).
  rewrite smtp_calls_conclude, Hssl. unfold planned_session.
  destruct (with_session _ _ _) as [calls raised] eqn:Es.
  destruct (with_session_calls w _ _ _ _ Es) as [Hhd Hin]. cbn [fst].
  split; [exact Hhd |].
  assert (Hno : forall op, In op calls ->
            (forall h p t, op <> ConnectSSL h p t) ->
            (forall u p, op <> Login u p) ->
            (forall m, op <> SendMessage m) -> op <> Quit -> False).
  { intros op Hop H1 H2 H3 H4.
    destruct (Hin op Hop) as [E|[[E|[E|[]]]|E]]; subst op;
      [now apply (H1 server port 30) | now apply (H2 user password)
       | now apply (H3 msg) | now apply H4]. }
  repeat split; intros; intro Hop; apply (Hno _ Hop); discriminate.
Qed.

Lemma implicit_tls_takes_precedence_witness :
  hd_error (smtp_calls (fst (_send_email both_flags_world "subject" "body")))
    = Some (ConnectSSL "mail.example.org" 465 30)
  /\ ~ In StartTLS (smtp_calls (fst (_send_email both_flags_world "subject" "body")))
  /\ ~ In Ehlo (smtp_calls (fst (_send_email both_flags_world "subject" "body")))
  /\ forall h p t,
       ~ In (Connect h p t)
            (smtp_calls (fst (_send_email both_flags_world "subject" "body"))).
Proof.
  apply (implicit_tls_takes_precedence both_flags_world "subject" "body"
           "ops@example.org" "mail.example.org" "dircap" "secret" 465
           {| msg_from := "dircap"; msg_to := "ops@example.org";
              msg_subject := "subject"; msg_body := "body" |});
    reflexivity.
Defined.

(** With the implicit-encryption flag off and the upgrade flag on, the
    credentials are sent only after STARTTLS: no login precedes it in the
    calls, and when the server refuses STARTTLS no login is attempted at
    all. *)
Theorem login_only_after_starttls (w : World) (subject body : string)
    (to server user password : string) (port : Z) (msg : message) :
  _env w "DIRCAP_EMAIL_TO" None = Some to ->
  _env w "DIRCAP_SMTP_SERVER" None = Some server ->
  _env w "DIRCAP_SMTP_USER" None = Some user ->
  _env w "DIRCAP_SMTP_PASS" None = Some password ->
  Str.to_Z (text (_env w "DIRCAP_SMTP_PORT" (Some "465"))) = Some port ->
  msg = {| msg_from := text (_env w "DIRCAP_EMAIL_FROM" (Some user));
           msg_to := to; msg_subject := subject; msg_body := body |} ->
  compose_error w msg = None ->
  _env_bool w "EMAIL_USE_SSL" (port =? 465) = false ->
  _env_bool w "EMAIL_USE_TLS" (port =? 587) = true ->
  login_guarded false (smtp_calls (fst (_send_email w subject body))) = true
  /\ (smtp w [Connect server port 30; Ehlo] StartTLS <> None ->
      forall u p, ~ In (Login u p) (smtp_calls (fst (_send_email w subject body)))).
Proof.
  intros Hto Hserver Huser Hpass Hport Hmsg Hcompose Hssl Htls.
  rewrite (send_email_session w subject body to server user password port
             Hto Hserver Huser Hpass Hport msg Hmsg Hcompose).
  rewrite smtp_calls_conclude, Hssl, Htls. unfold planned_session.
  cbn [app]. clear Hmsg.
  destruct (with_session _ _ _) as [calls raised] eqn:Es. cbn [fst].
  destruct (with_session_shape w _ _ _ _ Es)
    as [[-> _]|(made & rest & Hb & -> & _ & Hacc)].
  - split; [reflexivity |]. intros _ u p [E|[]]. discriminate E.
  - assert (Hfew : forall u p,
              ~ In (Login u p) [Connect server port 30; Quit]
              /\ ~ In (Login u p) [Connect server port 30; Ehlo; Quit]
              /\ ~ In (Login u p) [Connect server port 30; Ehlo; StartTLS; Quit]).
    { intros u p. repeat split; intros Hin; simpl in Hin;
        repeat (destruct Hin as [Hin|Hin]; [discriminate Hin |]); exact Hin. }
    destruct made as [|c1 [|c2 [|c3 [|c4 [|c5 [|c6 made]]]]]];
      simpl in Hb; inversion Hb; subst;
      (split; [reflexivity |]); intros Hrefused;
      try (intros u p; apply (Hfew u p)).
    + exfalso. apply Hrefused.
      apply (Hacc [Ehlo] StartTLS [Ehlo]); [reflexivity | discriminate].
    + exfalso. apply Hrefused.
      apply (Hacc [Ehlo] StartTLS [Ehlo; Login user password]);
        [reflexivity | discriminate].
    + exfalso. apply Hrefused.
      apply (Hacc [Ehlo] StartTLS [Ehlo; Login user password; SendMessage msg]);
        [reflexivity | discriminate].
Qed.

Lemma login_only_after_starttls_witness :
  login_guarded false
    (smtp_calls (fst (_send_email upgrade_port_world "subject" "body"))) = true
  /\ (smtp upgrade_port_world [Connect "mail.example.org" 587 30; Ehlo] StartTLS
        <> None ->
      forall u p,
        ~ In (Login u p)
             (smtp_calls (fst (_send_email upgrade_port_world "subject" "body")))).
Proof.
  apply (login_only_after_starttls upgrade_port_world "subject" "body"
           "ops@example.org" "mail.example.org" "dircap" "secret" 587
           {| msg_from := "dircap"; msg_to := "ops@example.org";
              msg_subject := "subject"; msg_body := "body" |});
    reflexivity.
Defined.

(** Whatever the mailer sends is what it was given and configured with:
    a message it hands to the server carries the subject and body it
    received, the configured recipient, and as sender DIRCAP_EMAIL_FROM or,
    without it, the user name; a login uses the configured user and
    password; a connection goes to the configured server and port with a
    timeout of 30. *)
Theorem mailer_sends_what_it_was_given (w : World) (subject body : string) :
  (forall m,
     In (SendMessage m) (smtp_calls (fst (_send_email w subject body))) ->
     msg_subject m = subject /\ msg_body m = body
     /\ _env w "DIRCAP_EMAIL_TO" None = Some (msg_to m)
     /\ msg_from m
        = text (_env w "DIRCAP_EMAIL_FROM" (_env w "DIRCAP_SMTP_USER" None)))
  /\ (forall u p,
        In (Login u p) (smtp_calls (fst (_send_email w subject body))) ->
        _env w "DIRCAP_SMTP_USER" None = Some u
        /\ _env w "DIRCAP_SMTP_PASS" None = Some p)
  /\ (forall h p t,
        In (Connect h p t) (smtp_calls (fst (_send_email w subject body)))
        \/ In (ConnectSSL h p t) (smtp_calls (fst (_send_email w subject body))) ->
        _env w "DIRCAP_SMTP_SERVER" None = Some h
        /\ Str.to_Z (text (_env w "DIRCAP_SMTP_PORT" (Some "465"))) = Some p
        /\ t = 30).
Proof.
  destruct (send_email_cases w subject body)
    as [[E _]|(to & server & user & password & port & msg & H)].
  - rewrite E. repeat split; try contradiction; destruct H as [[]|[]].
  - destruct H as (Hto & Hserver & Huser & Hpass & Hport & Hmsg & _ & E).
    rewrite E, smtp_calls_conclude. unfold planned_session.
    assert (Hops : forall op,
              In op (fst (if _env_bool w "EMAIL_USE_SSL" (port =? 465)
                          then with_session w (ConnectSSL server port 30)
                                 [Login user password; SendMessage msg]
                          else with_session w (Connect server port 30)
                                 ([Ehlo]
                                    ++ (if _env_bool w "EMAIL_USE_TLS" (port =? 587)
                                        then [StartTLS; Ehlo] else [])
                                    ++ [Login user password; SendMessage msg])%list)) ->
              op = ConnectSSL server port 30 \/ op = Connect server port 30
              \/ op = Ehlo \/ op = StartTLS \/ op = Login user password
              \/ op = SendMessage msg \/ op = Quit).
    { intros op Hop.
      destruct (_env_bool w "EMAIL_USE_SSL" (port =? 465));
        [|destruct (_env_bool w "EMAIL_USE_TLS" (port =? 587))];
        destruct (with_session _ _ _) as [calls raised] eqn:Es;
        destruct (with_session_calls w _ _ _ _ Es) as [_ Hin];
        destruct (Hin op Hop) as [Ho|[Ho|Ho]]; simpl in Ho; intuition. }
    split; [|split].
    + intros m Hm. apply Hops in Hm.
      destruct Hm as [Hm|[Hm|[Hm|[Hm|[Hm|[Hm|Hm]]]]]]; try discriminate Hm.
      injection Hm as ->. rewrite Hmsg, Hto, Huser. now repeat split.
    + intros u p Hl. apply Hops in Hl.
      destruct Hl as [Hl|[Hl|[Hl|[Hl|[Hl|[Hl|Hl]]]]]]; try discriminate Hl.
      injection Hl as -> ->. now split.
    + intros h p t [Hc|Hc]; apply Hops in Hc;
        destruct Hc as [Hc|[Hc|[Hc|[Hc|[Hc|[Hc|Hc]]]]]]; try discriminate Hc;
        injection Hc as -> -> ->; now repeat split.
Qed.

(** Without DIRCAP_SMTP_PORT and without EMAIL_USE_SSL the mailer uses
    port 465 with implicit TLS: its session is the implicit-TLS one on
    the configured server, port 465, with a timeout of 30. *)
Theorem default_port_uses_implicit_tls (w : World) (subject body : string)
    (to server user password : string) (msg : message) :
  _env w "DIRCAP_EMAIL_TO" None = Some to ->
  _env w "DIRCAP_SMTP_SERVER" None = Some server ->
  _env w "DIRCAP_SMTP_USER" None = Some user ->
  _env w "DIRCAP_SMTP_PASS" None = Some password ->
  missing w "DIRCAP_SMTP_PORT" ->
  missing w "EMAIL_USE_SSL" ->
  msg = {| msg_from := text (_env w "DIRCAP_EMAIL_FROM" (Some user));
           msg_to := to; msg_subject := subject; msg_body := body |} ->
  compose_error w msg = None ->
  _send_email w subject body =
    conclude to
      (with_session w (ConnectSSL server 465 30)
         [Login user password; SendMessage msg])
  /\ hd_error (smtp_calls (fst (_send_email w subject body)))
       = Some (ConnectSSL server 465 30).
Proof.
  intros Hto Hserver Huser Hpass Hport Hssl Hmsg Hcompose.
  assert (Hp : Str.to_Z (text (_env w "DIRCAP_SMTP_PORT" (Some "465")))
               = Some 465).
  { now rewrite (env_default w _ _ Hport). }
  assert (E : _send_email w subject body =
                conclude to
                  (with_session w (ConnectSSL server 465 30)
                     [Login user password; SendMessage msg])).
  { rewrite (send_email_session w subject body to server user password 465
               Hto Hserver Huser Hpass Hp msg Hmsg Hcompose).
    now rewrite (env_bool_default w _ _ Hssl). }
  split; [exact E |]. rewrite E, smtp_calls_conclude.
  destruct (with_session _ _ _) as [calls raised] eqn:Es.
  now destruct (with_session_calls w _ _ _ _ Es) as [Hhd _].
Qed.

Lemma default_port_uses_implicit_tls_witness :
  _send_email quiet_world "subject" "body" =
    conclude "ops@example.org"
      (with_session quiet_world (ConnectSSL "mail.example.org" 465 30)
         [ Login "dircap" "secret";
           SendMessage {| msg_from := "dircap"; msg_to := "ops@example.org";
                          msg_subject := "subject"; msg_body := "body" |} ])
  /\ hd_error (smtp_calls (fst (_send_email quiet_world "subject" "body")))
       = Some (ConnectSSL "mail.example.org" 465 30).
Proof.
  apply (default_port_uses_implicit_tls quiet_world "subject" "body"
           "ops@example.org" "mail.example.org" "dircap" "secret");
    try reflexivity; left; reflexivity.
Defined.

(** ** The entry point, further *)

(** Every run of the entry point ends in one of three ways. *)
Lemma main_cases (w : World) (argv : list string) :
  main w argv = ([Stderr usage_message], Ok 2)
  \/ (exists e, main w argv = ([], Raise e))
  \/ exists subject body, main w argv = _send_email w subject body.
Proof.
  destruct (Nat.eq_dec (List.length argv) 3) as [Hlen|Hlen];
    [|left; now apply main_usage].
  destruct argv as [|prog [|log_txt [|log_json [|x argv]]]]; try discriminate.
  rewrite main_steps.
  destruct (loaded_report w (Path.str log_json)) as [payload|e];
    [|right; left; now exists e].
  rewrite io_bind_lift_ok.
  destruct (_summarize payload) as [[[summary warnings] results]|e];
    [|right; left; now exists e].
  rewrite io_bind_lift_ok.
  destruct (_build_message _ _ _ _ _ _) as [subject body].
  right. right. now exists subject, body.
Qed.

(** The exit status of a run is 0, 1 or 2, and it is 0 exactly when the
    confirmation "Email sent to ..." was printed. *)
Theorem exit_status_zero_iff_sent (w : World) (argv : list string) :
  (exit_status w argv = 0 \/ exit_status w argv = 1 \/ exit_status w argv = 2)
  /\ (exit_status w argv = 0
      <-> existsb is_stdout (fst (main w argv)) = true).
Proof.
  unfold exit_status.
  destruct (main_cases w argv) as [E|[[e E]|(subject & body & E)]]; rewrite E.
  - cbn. split; [auto | split; discriminate].
  - cbn. split; [auto | split; discriminate].
  - destruct (send_email_result_shape w subject body)
      as [[Hr Hs]|[[[Hr|Hr] Hs]|[e Hr]]]; rewrite ?Hr, ?Hs.
    + split; [auto | split; reflexivity].
    + split; [auto | split; discriminate].
    + split; [auto | split; discriminate].
    + cbn. split; [auto | split; discriminate].
Qed.

(** The entry point never reads the text log, and asks the file system
    about the JSON path only: with any other answers of [Path.exists] and
    [Path.read_text] on every other path, the run is the same. *)
Theorem only_the_json_path_is_read (w : World)
    (exists_ : string -> result bool) (read : string -> result string)
    (argv : list string) :
  exists_ (Path.str (nth 2 argv "")) = path_exists w (Path.str (nth 2 argv "")) ->
  read (Path.str (nth 2 argv "")) = read_text w (Path.str (nth 2 argv "")) ->
  main (with_files w exists_ read) argv = main w argv.
Proof.
  intros He Hr. unfold main.
  destruct (negb (Nat.eqb (List.length argv) 3)); [reflexivity |].
  unfold _load_json, with_files.
  cbn [path_exists read_text json_loads now].
  rewrite He, Hr. reflexivity.
Qed.

Lemma only_the_json_path_is_read_witness :
  main (with_files flat_report_world
          (fun p => if String.eqb p "dircap-last.json" then Ok true
                    else Raise OSError)
          (fun p => if String.eqb p "dircap-last.json" then Ok ""
                    else Raise OSError))
       sample_argv
  = main flat_report_world sample_argv.
Proof.
  apply (only_the_json_path_is_read flat_report_world); reflexivity.
Defined.
